(** * EduKid: adaptive question selection, mastery update and the
      game-engine view-state machine

    Shallow embedding of

    - [server/routes.ts]: the [getNextQuestion] and [submitAnswer] handlers;
    - the [GameEngine] page component: [handleAnswer], [handleContinue], the
      game-phase interval effect and the shuffled [allOptions].

    JavaScript numbers are binary64 floats.  Identifiers, difficulties,
    counters and millisecond clocks only ever hold integers and are modelled
    as [Z].  The mastery score and the value of [Math.random()] are modelled
    as exact rationals [Q]: the arithmetic done on them ([* 5], [* length],
    [Math.floor]) is taken exactly. *)

From Stdlib Require Import ZArith QArith Qround String List Permutation Lia.
From Stdlib Require Import SpecFloat.
From stdpp Require Import base option list gmap strings.

Local Open Scope string_scope.
Local Open Scope Z_scope.

(** ** server/routes.ts *)

Module Routes.

(** Rows of the [questions], [mastery] and [learning_events] tables, with the
    columns the two handlers read or write. *)
Record Question : Type := mkQuestion {
  id : Z;
  topicId : Z;
  content : string;
  correctAnswer : string;
  distractors : list string;
  difficulty : Z;
  explanation : option string   (* nullable column *)
}.

Record Mastery : Type := mkMastery { score : Q }.

Record LearningEvent : Type := mkLearningEvent {
  ev_userId : Z;
  ev_questionId : Z;
  ev_isCorrect : bool;
  ev_timeTaken : Z
}.

(** The JSON body sent by [submitAnswer]. *)
Record Outcome : Type := mkOutcome {
  correct : bool;
  out_correctAnswer : string;
  coinsEarned : Z;
  newMastery : Q;
  feedback : string
}.

(** What a handler sends back. *)
Inductive response (A : Type) : Type :=
| Status401                      (* res.status(401).send() *)
| Status404 (message : string)   (* res.status(404).json({ message }) *)
| Json (body : A).               (* res.json(body) *)
Arguments Status401 {A}.
Arguments Status404 {A} message.
Arguments Json {A} body.

(** *** Calls on the [storage] object

    A handler is a sequence of awaited calls on [storage].  It is embedded as
    a tree of calls: each node is one call with its arguments, each
    continuation receives what the call resolves to. *)
Inductive storage (A : Type) : Type :=
| Ret (a : A)
| GetMastery (userId topic : Z) (k : option Mastery -> storage A)
| GetQuestionsByTopic (topic : Z) (k : list Question -> storage A)
| GetQuestion (questionId : Z) (k : option Question -> storage A)
| LogLearningEvent (userId questionId : Z) (isCorrect : bool) (timeTaken : Z)
    (k : storage A)
| UpdateMastery (userId topic : Z) (newScore : Q) (k : storage A).
Arguments Ret {A} a.
Arguments GetMastery {A} userId topic k.
Arguments GetQuestionsByTopic {A} topic k.
Arguments GetQuestion {A} questionId k.
Arguments LogLearningEvent {A} userId questionId isCorrect timeTaken k.
Arguments UpdateMastery {A} userId topic newScore k.

Fixpoint bind {A B : Type} (p : storage A) (f : A -> storage B) : storage B :=
  match p with
  | Ret a => f a
  | GetMastery u t k => GetMastery u t (fun r => bind (k r) f)
  | GetQuestionsByTopic t k => GetQuestionsByTopic t (fun r => bind (k r) f)
  | GetQuestion q k => GetQuestion q (fun r => bind (k r) f)
  | LogLearningEvent u q c t k => LogLearningEvent u q c t (bind k f)
  | UpdateMastery u t s k => UpdateMastery u t s (bind k f)
  end.

Notation "'await' x <- c ;; k" := (bind c (fun x => k))
  (at level 10, x name, c at level 99, k at level 200).
Notation "'exec' c ;; k" := (bind c (fun _ : unit => k))
  (at level 10, c at level 99, k at level 200).

Definition getMastery (userId topic : Z) : storage (option Mastery) :=
  GetMastery userId topic Ret.
Definition getQuestionsByTopic (topic : Z) : storage (list Question) :=
  GetQuestionsByTopic topic Ret.
Definition getQuestion (questionId : Z) : storage (option Question) :=
  GetQuestion questionId Ret.
Definition logLearningEvent (userId questionId : Z) (isCorrect : bool)
    (timeTaken : Z) : storage unit :=
  LogLearningEvent userId questionId isCorrect timeTaken (Ret tt).
Definition updateMastery (userId topic : Z) (newScore : Q) : storage unit :=
  UpdateMastery userId topic newScore (Ret tt).

(** *** JavaScript idioms used by the handlers *)

(** Truthiness of a value that is an object or [null]/[undefined]. *)
Definition is_Some_b {A : Type} (o : option A) : bool :=
  match o with Some _ => true | None => false end.

(** [req.session.userId] is [undefined] without a session; [!userId] also
    holds for the number 0.  The result is the user id the handler goes on
    with, if any. *)
Definition session_user (userId : option Z) : option Z :=
  match userId with
  | Some u => if u =? 0 then None else Some u
  | None => None
  end.

(** [m?.score || 0] *)
Definition score_or_0 (m : option Mastery) : Q :=
  match m with
  | Some r => if Qeq_bool (score r) 0 then 0%Q else score r
  | None => 0%Q
  end.

(** [s || fallback] on a nullable string: [null] and the empty string are
    falsy. *)
Definition string_or (s : option string) (fallback : string) : string :=
  match s with
  | Some EmptyString => fallback
  | Some e => e
  | None => fallback
  end.

(** [arr[i]] for a number [i] that holds an integer: [undefined] out of
    range. *)
Definition index {A : Type} (arr : list A) (i : Z) : option A :=
  if i <? 0 then None else arr !! Z.to_nat i.

(** *** getNextQuestion *)

(** [Math.max(1, Math.min(5, Math.floor(currentScore * 5) + 1))] *)
Definition targetDifficulty (currentScore : Q) : Z :=
  Z.max 1 (Z.min 5 (Qfloor (currentScore * 5) + 1)).





(** The candidate list: the questions of the target difficulty, or all of
    them when there is none. *)
Definition candidateQuestions (allQuestions : list Question) (target : Z)
    : list Question :=
  let candidates :=
    List.filter (fun q => difficulty q =? target) allQuestions in
  if (Z.of_nat (length candidates) =? 0) then allQuestions else candidates.

(** [random] is the value [Math.random()] returns in this request. *)
Definition getNextQuestion (userId : option Z) (topic : Z) (random : Q)
    : storage (response (option Question)) :=
  match session_user userId with
  | None => Ret Status401
  | Some uid =>
    await topicMastery <- getMastery uid topic ;;
    let currentScore := score_or_0 topicMastery in
    let target := targetDifficulty currentScore in
    await allQuestions <- getQuestionsByTopic topic ;;
    if Z.of_nat (length allQuestions) =? 0
    then Ret (Status404 "No questions found")
    else
      let candidates := candidateQuestions allQuestions target in
      let randomQ :=
        index candidates
          (Qfloor (random * inject_Z (Z.of_nat (length candidates)))) in
      Ret (Json randomQ)
  end.

(** *** submitAnswer *)

Definition submitAnswer (userId : option Z) (questionId : Z) (answer : string)
    (timeTaken : Z) : storage (response Outcome) :=
  match session_user userId with
  | None => Ret Status401
  | Some uid =>
    await question <- getQuestion questionId ;;
    match question with
    | None => Ret (Status404 "Question not found")
    | Some question =>
      let isCorrect := String.eqb (correctAnswer question) answer in
      exec logLearningEvent uid questionId isCorrect timeTaken ;;
      exec updateMastery uid (topicId question)
              (if isCorrect then 1%Q else 0%Q) ;;
      await masteryRecord <- getMastery uid (topicId question) ;;
      Ret (Json {| correct := isCorrect;
                   out_correctAnswer := correctAnswer question;
                   coinsEarned := if isCorrect then 10 else 0;
                   newMastery := score_or_0 masteryRecord;
                   feedback := if isCorrect then "Great job!"
                               else string_or (explanation question)
                                              "Keep trying!" |})
    end
  end.

(** *** The store behind [storage]

    [server/storage.ts] is not among the sources; the handlers only see its
    methods. *)

Record Store : Type := mkStore {
  questions : list Question;
  mastery : gmap (Z * Z) Mastery;          (* keyed by (student, topic) *)
  learningEvents : list LearningEvent       (* oldest first *)
}.

(** Modelled from the spec: [storage.getMastery], missing from the sources,
    is the mastery store's [getMastery(studentId, topicId)], which gives the
    record kept for the pair, or nothing. *)
Definition store_getMastery (s : Store) (userId topic : Z) : option Mastery :=
  mastery s !! (userId, topic).

(** Modelled from the spec: [storage.getQuestionsByTopic], missing from the
    sources, is the question store's [listQuestionsByTopic(topicId)]: all
    questions whose owning topic is the one asked for. *)
Definition store_getQuestionsByTopic (s : Store) (topic : Z) : list Question :=
  List.filter (fun q => topicId q =? topic) (questions s).

(** Modelled from the spec: [storage.getQuestion], missing from the sources,
    is the question store's [getQuestion(id)]: the question with that
    identifier, or nothing. *)
Definition store_getQuestion (s : Store) (questionId : Z) : option Question :=
  List.find (fun q => id q =? questionId) (questions s).

(** Modelled from the spec: [storage.logLearningEvent], missing from the
    sources, is the event log's [append(studentId, questionId, correct,
    timeTaken)] on an append-only log.  The timestamp the log adds is not
    an argument of the call and is left out. *)
Definition store_logLearningEvent (s : Store) (userId questionId : Z)
    (isCorrect : bool) (timeTaken : Z) : Store :=
  {| questions := questions s;
     mastery := mastery s;
     learningEvents :=
       learningEvents s ++ [mkLearningEvent userId questionId isCorrect timeTaken] |}.

(** Modelled from the spec: [storage.updateMastery], missing from the
    sources, is the mastery store's [upsertMastery(studentId, topicId,
    score)]: the record for the pair is created on the first answer and
    overwritten in place afterwards. *)
Definition store_updateMastery (s : Store) (userId topic : Z) (newScore : Q)
    : Store :=
  {| questions := questions s;
     mastery := <[(userId, topic) := mkMastery newScore]> (mastery s);
     learningEvents := learningEvents s |}.

(** Running a handler against a store: the response and the store left
    behind. *)
Fixpoint run {A : Type} (p : storage A) (s : Store) : A * Store :=
  match p with
  | Ret a => (a, s)
  | GetMastery u t k => run (k (store_getMastery s u t)) s
  | GetQuestionsByTopic t k => run (k (store_getQuestionsByTopic s t)) s
  | GetQuestion q k => run (k (store_getQuestion s q)) s
  | LogLearningEvent u q c t k => run k (store_logLearningEvent s u q c t)
  | UpdateMastery u t sc k => run k (store_updateMastery s u t sc)
  end.

(** The calls a handler makes on [storage] during that run, in order. *)
Inductive call : Type :=
| CallGetMastery (userId topic : Z)
| CallGetQuestionsByTopic (topic : Z)
| CallGetQuestion (questionId : Z)
| CallLogLearningEvent (userId questionId : Z) (isCorrect : bool) (timeTaken : Z)
| CallUpdateMastery (userId topic : Z) (newScore : Q).

Fixpoint calls {A : Type} (p : storage A) (s : Store) : list call :=
  match p with
  | Ret _ => []
  | GetMastery u t k =>
      CallGetMastery u t :: calls (k (store_getMastery s u t)) s
  | GetQuestionsByTopic t k =>
      CallGetQuestionsByTopic t :: calls (k (store_getQuestionsByTopic s t)) s
  | GetQuestion q k =>
      CallGetQuestion q :: calls (k (store_getQuestion s q)) s
  | LogLearningEvent u q c t k =>
      CallLogLearningEvent u q c t :: calls k (store_logLearningEvent s u q c t)
  | UpdateMastery u t sc k =>
      CallUpdateMastery u t sc :: calls k (store_updateMastery s u t sc)
  end.

Definition is_write (c : call) : bool :=
  match c with
  | CallLogLearningEvent _ _ _ _ | CallUpdateMastery _ _ _ => true
  | _ => false
  end.

(** The store [submitAnswer] leaves once the question is found: one event
    appended, then one mastery upsert. *)
Definition graded_store (s : Store) (uid questionId : Z) (question : Question)
    (answer : string) (timeTaken : Z) : Store :=
  let isCorrect := String.eqb (correctAnswer question) answer in
  store_updateMastery
    (store_logLearningEvent s uid questionId isCorrect timeTaken)
    uid (topicId question) (if isCorrect then 1%Q else 0%Q).

(** Every stored mastery score lies in [0,1]. *)
Definition scores_in_range (s : Store) : Prop :=
  map_Forall (fun _ m => (0 <= score m)%Q /\ (score m <= 1)%Q) (mastery s).

(** The science questions [seedDatabase] inserts, with the serial identifiers
    the inserts give them: topics 1 (electricity), 2 (plants), 3 (space);
    users 1 (admin) and 2 (student1).  No mastery record and no learning
    event exists after seeding. *)
Definition seed_questions : list Question :=
  [ mkQuestion 1 1 "Which of these is a good conductor of electricity?"
      "Copper" ["Wood"; "Plastic"; "Rubber"] 2
      (Some "Metals like copper allow electricity to flow freely.");
    mkQuestion 2 1 "What component breaks a circuit to stop the flow?"
      "Switch" ["Battery"; "Bulb"; "Wire"] 3
      (Some "A switch opens the circuit gap.");
    mkQuestion 3 3 "Which planet is closest to the Sun?"
      "Mercury" ["Venus"; "Earth"; "Mars"] 2
      (Some "Mercury is the first planet.");
    mkQuestion 4 3 "How many planets are in our solar system?"
      "8" ["7"; "9"; "10"] 1
      (Some "There are 8 planets in our solar system.");
    mkQuestion 5 2 "What do plants need to make food?"
      "Sunlight" ["Darkness"; "Music"; "Salt"] 1
      (Some "Plants use sunlight for photosynthesis.") ].

Definition seed_store : Store :=
  {| questions := seed_questions; mastery := ∅; learningEvents := [] |}.

(** A store with one authored question whose explanation is the empty
    string. *)
Definition blank_explanation_store : Store :=
  {| questions :=
       [ mkQuestion 1 1 "What is 2 + 2?" "4" ["3"; "5"] 1 (Some EmptyString) ];
     mastery := ∅;
     learningEvents := [] |}.



End Routes.

(** ** The GameEngine page component *)

Module GameEngine.
Import Routes (is_Some_b).

Inductive GamePhase : Type :=
| phase_question | phase_game | phase_result | phase_loading.

Definition GamePhase_eqb (a b : GamePhase) : bool :=
  match a, b with
  | phase_question, phase_question | phase_game, phase_game
  | phase_result, phase_result | phase_loading, phase_loading => true
  | _, _ => false
  end.



(** The value kept by [useState] for [result]. *)
Record Result : Type := mkResult {
  r_correct : bool;
  r_message : string;
  r_coinsEarned : Z
}.

(** The [useState] cells of the component. *)
Record State : Type := mkState {
  phase : GamePhase;
  selectedAnswer : option string;
  result : option Result;
  startTime : Z;
  score : Z;
  streak : Z;
  questionsAnswered : Z;
  gameProgress : Z
}.

Definition setPhase (p : GamePhase) (s : State) : State :=
  mkState p (selectedAnswer s) (result s) (startTime s) (score s) (streak s)
    (questionsAnswered s) (gameProgress s).
Definition setSelectedAnswer (a : option string) (s : State) : State :=
  mkState (phase s) a (result s) (startTime s) (score s) (streak s)
    (questionsAnswered s) (gameProgress s).
Definition setResult (r : option Result) (s : State) : State :=
  mkState (phase s) (selectedAnswer s) r (startTime s) (score s) (streak s)
    (questionsAnswered s) (gameProgress s).
Definition setStartTime (t : Z) (s : State) : State :=
  mkState (phase s) (selectedAnswer s) (result s) t (score s) (streak s)
    (questionsAnswered s) (gameProgress s).
Definition setScore (f : Z -> Z) (s : State) : State :=
  mkState (phase s) (selectedAnswer s) (result s) (startTime s) (f (score s))
    (streak s) (questionsAnswered s) (gameProgress s).
Definition setStreak (f : Z -> Z) (s : State) : State :=
  mkState (phase s) (selectedAnswer s) (result s) (startTime s) (score s)
    (f (streak s)) (questionsAnswered s) (gameProgress s).
Definition setQuestionsAnswered (f : Z -> Z) (s : State) : State :=
  mkState (phase s) (selectedAnswer s) (result s) (startTime s) (score s)
    (streak s) (f (questionsAnswered s)) (gameProgress s).
Definition setGameProgress (f : Z -> Z) (s : State) : State :=
  mkState (phase s) (selectedAnswer s) (result s) (startTime s) (score s)
    (streak s) (questionsAnswered s) (f (gameProgress s)).

(** What a handler asks of the hooks and the browser. *)
Inductive Cmd : Type :=
| SubmitAnswer (questionId : Z) (answer : string) (timeTaken : Z)
    (streak_seen : Z)        (* submitAnswer({...}, { onSuccess }); the
                                 callback closes over [streak] *)
| Refetch                    (* refetch() *)
| RefetchThenQuestion        (* refetch().then(() => setPhase("question")) *)
| ClearInterval
| Confetti.

(** [Math.round(ms / 1000)] for an integer [ms]: the nearest integer, halves
    upwards. *)
Definition round_seconds (ms : Z) : Z := (ms + 500) / 1000.

(** [handleAnswer(answer)], called at clock reading [now] while [question]
    is loaded (the option buttons exist only then). *)
Definition handleAnswer (question : Routes.Question) (now : Z) (answer : string)
    (s : State) : State * list Cmd :=
  if is_Some_b (result s) || negb (GamePhase_eqb (phase s) phase_question)
  then (s, [])
  else
    let timeTaken := round_seconds (now - startTime s) in
    (setSelectedAnswer (Some answer) s,
     [SubmitAnswer (Routes.id question) answer timeTaken (streak s)]).

(** The [onSuccess] callback of one submission; [streak_seen] is the
    [streak] its closure was created with, [data] the server's answer. *)
Definition onSuccess (streak_seen : Z) (data : Routes.Outcome) (s : State)
    : State * list Cmd :=
  let s1 :=
    setResult
      (Some {| r_correct := Routes.correct data;
               r_message := if Routes.correct data then "Correct!"
                            else "Not quite...";
               r_coinsEarned := Routes.coinsEarned data |}) s in
  let '(s2, cmds) :=
    if Routes.correct data
    then (setStreak (fun prev => prev + 1)
            (setScore (fun prev => prev + 10 + streak_seen * 2) s1),
          [Confetti])
    else (setStreak (fun _ => 0) s1, []) in
  (setPhase phase_result (setQuestionsAnswered (fun prev => prev + 1) s2), cmds).

(** [handleContinue()].  [%] is the remainder of truncated division. *)
Definition handleContinue (s : State) : State * list Cmd :=
  if (Z.rem (questionsAnswered s) 3 =? 0) && (questionsAnswered s >? 0)
  then (setResult None (setGameProgress (fun _ => 0) (setPhase phase_game s)), [])
  else (setResult None (setPhase phase_loading s), [RefetchThenQuestion]).

(** One firing of the game-phase interval: the updater handed to
    [setGameProgress], with what it does besides. *)
Definition tick (s : State) : State * list Cmd :=
  if gameProgress s >=? 100
  then (setGameProgress (fun _ => 0) (setPhase phase_question s),
        [ClearInterval; Refetch])
  else (setGameProgress (fun prev => prev + 2) s, []).

(** The body of the first effect, run when [question] or [phase] changed. *)
Definition questionEffect (question : option Routes.Question) (now : Z)
    (s : State) : State :=
  if is_Some_b question && GamePhase_eqb (phase s) phase_question
  then setResult None (setSelectedAnswer None (setStartTime now s))
  else s.

(** *** The mounted component

    The state cells together with what the two hooks hold and what is on its
    way: [useQuestion]'s data and fetch flag, the callbacks waiting on
    [refetch()], and the submissions handed to [useSubmitAnswer]'s [mutate],
    each of which is a request sent to the server. *)
Record Submission : Type := mkSubmission {
  sub_questionId : Z;
  sub_answer : string;
  sub_timeTaken : Z;
  sub_streak_seen : Z
}.

Record Component : Type := mkComponent {
  view : State;
  question : option Routes.Question;
  isFetching : bool;
  thens : nat;                       (* waiting [.then] callbacks *)
  inflight : list Submission;        (* sent, response outstanding *)
  submitted : list Submission        (* every request sent, oldest first *)
}.

Definition with_view (s : State) (c : Component) : Component :=
  mkComponent s (question c) (isFetching c) (thens c) (inflight c) (submitted c).

Definition perform (cmd : Cmd) (c : Component) : Component :=
  match cmd with
  | SubmitAnswer q a t k =>
      mkComponent (view c) (question c) (isFetching c) (thens c)
        (inflight c ++ [mkSubmission q a t k])
        (submitted c ++ [mkSubmission q a t k])
  | Refetch =>
      mkComponent (view c) (question c) true (thens c) (inflight c) (submitted c)
  | RefetchThenQuestion =>
      mkComponent (view c) (question c) true (S (thens c)) (inflight c)
        (submitted c)
  | ClearInterval | Confetti => c
  end.

Definition apply_handler (r : State * list Cmd) (c : Component) : Component :=
  fold_left (fun c cmd => perform cmd c) (snd r) (with_view (fst r) c).

(** What the render shows.  The spinner replaces everything while
    [isLoading || isFetching || !question]. *)
Definition spinner (c : Component) : bool :=
  isFetching c || negb (is_Some_b (question c)).

(** The option buttons are rendered in the question and result phases and
    are disabled once a result is there. *)
Definition options_clickable (c : Component) : bool :=
  negb (spinner c)
  && (GamePhase_eqb (phase (view c)) phase_question
      || GamePhase_eqb (phase (view c)) phase_result)
  && negb (is_Some_b (result (view c))).

(** The continue button is rendered with the result panel. *)
Definition continue_clickable (c : Component) : bool :=
  negb (spinner c)
  && GamePhase_eqb (phase (view c)) phase_result
  && is_Some_b (result (view c)).

Inductive Event : Type :=
| ClickOption (answer : string)        (* the student clicks an option *)
| ClickContinue                        (* the student clicks continue *)
| SubmitSucceeded (data : Routes.Outcome)
                                       (* the oldest open submission is answered *)
| FetchSettled (next : Routes.Question) (* the question fetch settles *)
| IntervalTick.                        (* the game-phase interval fires *)

Definition is_user_input (e : Event) : bool :=
  match e with
  | ClickOption _ | ClickContinue => true
  | _ => false
  end.

(** The event handlers proper, before effects. *)
Definition dispatch (now : Z) (e : Event) (c : Component) : Component :=
  match e with
  | ClickOption answer =>
      match question c with
      | Some q =>
          if options_clickable c
          then apply_handler (handleAnswer q now answer (view c)) c
          else c
      | None => c
      end
  | ClickContinue =>
      if continue_clickable c
      then apply_handler (handleContinue (view c)) c
      else c
  | SubmitSucceeded data =>
      match inflight c with
      | sub :: rest =>
          apply_handler (onSuccess (sub_streak_seen sub) data (view c))
            (mkComponent (view c) (question c) (isFetching c) (thens c) rest
               (submitted c))
      | [] => c
      end
  | FetchSettled next =>
      if isFetching c
      then mkComponent
             (match thens c with
              | O => view c
              | S _ => setPhase phase_question (view c)
              end)
             (Some next) false O (inflight c) (submitted c)
      else c
  | IntervalTick =>
      (* the interval exists only while the phase is [game] *)
      if GamePhase_eqb (phase (view c)) phase_game
      then apply_handler (tick (view c)) c
      else c
  end.

(** One event at clock reading [now]: the handler, then the first effect if
    one of its dependencies [question], [phase] changed. *)
Definition step (now : Z) (e : Event) (c : Component) : Component :=
  let c' := dispatch now e c in
  let question_changed :=
    match e with FetchSettled _ => isFetching c | _ => false end in
  if question_changed
     || negb (GamePhase_eqb (phase (view c)) (phase (view c')))
  then with_view (questionEffect (question c') now (view c')) c'
  else c'.

Definition steps (c : Component) (es : list (Z * Event)) : Component :=
  fold_left (fun c e => step (fst e) (snd e) c) es c.

(** The component once the first question has loaded, mounted at clock
    reading [now]. *)
Definition mounted (first : Routes.Question) (now : Z) : Component :=
  {| view := mkState phase_question None None now 0 0 0 0;
     question := Some first;
     isFetching := false;
     thens := O;
     inflight := [];
     submitted := [] |}.

(** *** The shuffled options

    [[question.correctAnswer, ...question.distractors]
       .sort(() => Math.random() - 0.5)]

    [Array.prototype.sort] is the engine's.  It is modelled as the insertion
    sort engines run on short arrays: each element in turn moves left past
    the elements the comparator orders after it.  The comparator ignores its
    arguments; [random n] is what the [n]-th call of [Math.random()] in this
    render returns. *)

(** [order > 0] for [order = Math.random() - 0.5]. *)
Definition order_positive (r : Q) : bool := negb (Qle_bool (r - (1 # 2)) 0).

(** The inner loop: [element] moves left through the sorted prefix, which is
    given last element first; the result is in the same orientation, together
    with the number of [Math.random()] calls made so far. *)
Fixpoint insert_element (random : nat -> Q) (n : nat) (element : string)
    (prefix_rev : list string) : list string * nat :=
  match prefix_rev with
  | [] => ([element], n)
  | tmp :: rest =>
      if order_positive (random n)
      then let '(l, n') := insert_element random (S n) element rest in
           (tmp :: l, n')
      else (element :: tmp :: rest, S n)
  end.

Fixpoint insertion_sort (random : nat -> Q) (n : nat) (prefix_rev : list string)
    (rest : list string) : list string :=
  match rest with
  | [] => rev prefix_rev
  | element :: rest' =>
      let '(prefix_rev', n') := insert_element random n element prefix_rev in
      insertion_sort random n' prefix_rev' rest'
  end.

Definition allOptions (question : Routes.Question) (random : nat -> Q)
    : list string :=
  insertion_sort random 0 []
    (Routes.correctAnswer question :: Routes.distractors question).

(** *** A session

    The events of a session in which the student answers [n] questions and
    clicks continue after each.  After every continue the interval is given
    51 firings (it only exists in the game phase) and the pending fetch then
    settles. *)
Definition answer_and_continue (answer : string) (data : Routes.Outcome)
    : list Event :=
  [ClickOption answer; SubmitSucceeded data; ClickContinue].

Definition settle (next : Routes.Question) : list Event :=
  (repeat IntervalTick 51 ++ [FetchSettled next])%list.

(** Events get the clock readings 1000, 2000, ... *)
Definition timed (es : list Event) : list (Z * Event) :=
  imap (fun i e => (1000 * (Z.of_nat i + 1), e)) es.

(** Two components of a session on the seeded question 2: showing the result
    of the third answer, and at the start of the interstitial after it. *)
Definition switch_question : Routes.Question :=
  Routes.mkQuestion 2 1 "What component breaks a circuit to stop the flow?"
    "Switch" ["Battery"; "Bulb"; "Wire"] 3
    (Some "A switch opens the circuit gap.").

Definition third_result : Component :=
  mkComponent
    (mkState phase_result (Some "Switch") (Some (mkResult true "Correct!" 10))
       0 36 3 3 0)
    (Some switch_question) false O [] [].


(** The server handling the requests of the submissions [subs] of student
    [uid], one after the other. *)
Definition serve (uid : Z) (subs : list Submission) (s : Routes.Store)
    : Routes.Store :=
  fold_left
    (fun s sub =>
       snd (Routes.run
              (Routes.submitAnswer (Some uid) (sub_questionId sub)
                 (sub_answer sub) (sub_timeTaken sub)) s))
    subs s.


(** The events up to and including the [n]-th continue. *)
Fixpoint session (answer : string) (data : Routes.Outcome)
    (next : Routes.Question) (n : nat) : list Event :=
  match n with
  | O => []
  | S O => answer_and_continue answer data
  | S n' =>
      (session answer data next n' ++ settle next
         ++ answer_and_continue answer data)%list
  end.

End GameEngine.

(** ** The GameEngine page component: what the render shows *)

Module Render.
Import GameEngine.

Definition class_neutral : string :=
  "bg-white/10 border-white/20 hover:bg-white/20 hover:border-white/40 hover:scale-105".
Definition class_correct : string :=
  "bg-green-500/90 border-green-400 ring-4 ring-green-400/50 scale-105".
Definition class_wrong : string :=
  "bg-red-500/90 border-red-400 scale-95".
Definition class_dimmed : string :=
  "opacity-40 bg-white/5 border-transparent scale-95".

(** [selectedAnswer === option] *)
Definition selected_is (selectedAnswer : option string) (option : string)
    : bool :=
  match selectedAnswer with
  | Some a => String.eqb a option
  | None => false
  end.

(** [statusClass] of one option button. *)
Definition statusClass (result : option Result) (selectedAnswer : option string)
    (correctAnswer option : string) : string :=
  match result with
  | Some r =>
      if String.eqb option correctAnswer then class_correct
      else if selected_is selectedAnswer option && negb (r_correct r)
      then class_wrong
      else class_dimmed
  | None => class_neutral
  end.

(** The check mark: [result && option === question.correctAnswer]. *)
Definition showsCheck (result : option Result) (correctAnswer option : string)
    : bool :=
  match result with
  | Some _ => String.eqb option correctAnswer
  | None => false
  end.

(** The cross: [result && selectedAnswer === option && !result.correct]. *)
Definition showsCross (result : option Result) (selectedAnswer : option string)
    (option : string) : bool :=
  match result with
  | Some r => selected_is selectedAnswer option && negb (r_correct r)
  | None => false
  end.

(** The text of the continue button. *)
Definition continueLabel (questionsAnswered : Z) : string :=
  if (Z.rem questionsAnswered 3 =? 0) && (questionsAnswered >? 0)
  then "Play Game! 🎮"
  else "Next Question →".

End Render.

(** ** Whole rounds of a session *)

Module Rounds.
Import GameEngine.

(** One round at clock reading [now]: the student clicks [answer], the
    server answers [data], the student clicks continue, the interval is
    given its 51 firings and the fetch settles with [next]. *)
Definition round (play : Z * string * Routes.Outcome * Routes.Question)
    : list (Z * Event) :=
  let '(now, answer, data, next) := play in
  map (fun e => (now, e)) (answer_and_continue answer data ++ settle next).

Definition rounds (plays : list (Z * string * Routes.Outcome * Routes.Question))
    : list (Z * Event) :=
  concat (map round plays).

(** The component shows a question and waits for the first click on it. *)
Definition ready (c : Component) : Prop :=
  phase (view c) = phase_question /\
  result (view c) = None /\
  is_Some (question c) /\
  isFetching c = false /\
  inflight c = [].

(** The log entry the server writes for a submission of student [uid], if
    the store [s] knows the question. *)
Definition logged (s : Routes.Store) (uid : Z) (sub : Submission)
    : option Routes.LearningEvent :=
  match Routes.store_getQuestion s (sub_questionId sub) with
  | Some q =>
      Some (Routes.mkLearningEvent uid (sub_questionId sub)
              (String.eqb (Routes.correctAnswer q) (sub_answer sub))
              (sub_timeTaken sub))
  | None => None
  end.

End Rounds.

(** ** server/routes.ts: the topic list *)

Module Topics.
Import Routes.

Record Topic : Type := mkTopic {
  topic_id : Z;
  subjectId : Z;
  name : string;
  slug : string;
  stage : string;
  description : string
}.

(** The body of the answer: the topics as stored, or each with the
    [mastery] field spread onto it. *)
Inductive topics_body : Type :=
| Plain (topics : list Topic)
| WithMastery (topics : list (Topic * Q)).

(** [filteredTopics].  [subjectId] is the constant of that name: the number
    [Number(req.query.subjectId)], or [None] when the parameter is missing
    or empty, or the number is [NaN].  The filter is applied when it is
    truthy, that is, a number other than 0. *)
Definition filteredTopics (subject : option Q) (allTopics : list Topic)
    : list Topic :=
  match subject with
  | Some n =>
      if Qeq_bool n 0 then allTopics
      else List.filter (fun t => Qeq_bool (inject_Z (subjectId t)) n) allTopics
  | None => allTopics
  end.

(** [Promise.all(filteredTopics.map(async (t) => ...))]: one [getMastery]
    per topic, in the order of the list. *)
Fixpoint topicsWithMastery (uid : Z) (topics : list Topic)
    : storage (list (Topic * Q)) :=
  match topics with
  | [] => Ret []
  | t :: rest =>
      await m <- getMastery uid (topic_id t) ;;
      await others <- topicsWithMastery uid rest ;;
      Ret ((t, score_or_0 m) :: others)
  end.

(** The handler of [getTopics], from the point where
    [storage.getTopics(stage)] has resolved to [allTopics]. *)
Definition getTopics (role : option string) (userId : option Z)
    (subject : option Q) (allTopics : list Topic) : storage topics_body :=
  let filtered := filteredTopics subject allTopics in
  match role, session_user userId with
  | Some r, Some uid =>
      if String.eqb r "student"
      then await listed <- topicsWithMastery uid filtered ;;
           Ret (WithMastery listed)
      else Ret (Plain filtered)
  | _, _ => Ret (Plain filtered)
  end.

(** The topics of an answer, without the mastery field. *)
Definition listed (body : topics_body) : list Topic :=
  match body with
  | Plain topics => topics
  | WithMastery topics => map fst topics
  end.

(** The topics [seedDatabase] inserts, with the serial identifiers the
    inserts give them. *)
Definition seed_topics : list Topic :=
  [ mkTopic 1 1 "Electricity" "electricity" "KS2" "Circuits and conductors";
    mkTopic 2 1 "Plants" "plants" "KS2" "Photosynthesis and growth";
    mkTopic 3 1 "Space" "space" "KS2" "Planets and the solar system";
    mkTopic 4 2 "Addition" "addition" "KS2" "Adding numbers together";
    mkTopic 5 2 "Subtraction" "subtraction" "KS2" "Taking numbers away";
    mkTopic 6 2 "Multiplication" "multiplication" "KS2"
      "Times tables and products";
    mkTopic 7 2 "Division" "division" "KS2" "Sharing and grouping";
    mkTopic 8 2 "Fractions" "fractions" "KS2" "Parts of a whole" ].

End Topics.

(** ** server/routes.ts: login, logout, me *)

Module Auth.

(** A value that is a string, [null] or [undefined], compared with [===]. *)
Inductive field : Type :=
| Undefined
| Null
| Str (s : string).

Definition strict_eq (a b : field) : bool :=
  match a, b with
  | Undefined, Undefined | Null, Null => true
  | Str x, Str y => String.eqb x y
  | _, _ => false
  end.

(** A row of [users], with the columns the handlers read or set. *)
Record User : Type := mkUser {
  user_id : Z;
  username : string;
  password : field;
  role : string;
  firstName : string;
  picturePassword : option (list string);   (* nullable column *)
  yearGroup : option Z
}.

(** The argument of [storage.createUser]. *)
Record InsertUser : Type := mkInsertUser {
  new_username : string;
  new_password : field;
  new_role : string;
  new_firstName : string;
  new_picturePassword : option (list string);
  new_yearGroup : option Z
}.

(** What [loginSchema.parse(req.body)] returns. *)
Record LoginInput : Type := mkLoginInput {
  in_username : string;
  in_password : field;
  in_role : string;
  in_picturePassword : option (list string)  (* an array, or missing *)
}.

Record Session : Type := mkSession {
  session_userId : option Z;
  session_role : option string
}.

Definition no_session : Session := mkSession None None.

Inductive auth_response : Type :=
| Status400 (message : string)       (* res.status(400).json({ message }) *)
| Unauthorized (message : string)    (* res.status(401).json({ message }) *)
| Unauthorized_empty                 (* res.status(401).send() *)
| Message (message : string)         (* res.json({ message }) *)
| UserJson (user : User).            (* res.json(user) *)

(** [stored.every((val, index) => val === provided[index])] *)
Definition every_matches (stored provided : list string) : bool :=
  forallb
    (fun p : nat * string =>
       match provided !! fst p with
       | Some x => String.eqb (snd p) x
       | None => false            (* [val === undefined] *)
       end)
    (imap (fun i val => (i, val)) stored).

(** [stored && stored.length === provided.length && stored.every(...)] *)
Definition isMatch (stored : option (list string)) (provided : list string)
    : bool :=
  match stored with
  | Some st =>
      (Z.of_nat (length st) =? Z.of_nat (length provided))
      && every_matches st provided
  | None => false
  end.

(** The login handler.  [getUserByUsername] and [createUser] are the two
    methods of [storage] it calls; [input] is [None] when
    [loginSchema.parse] throws (the storage calls are taken to resolve).
    The result is the response, the session afterwards and the users handed
    to [createUser].  The columns [avatarConfig], [classId] and [parentId],
    which the handler only ever sets to empty values, are left out. *)
Definition login (getUserByUsername : string -> option User)
    (createUser : InsertUser -> User) (input : option LoginInput)
    (session : Session) : auth_response * Session * list InsertUser :=
  match input with
  | None => (Status400 "Validation error", session, [])
  | Some input =>
    if String.eqb (in_username input) "admin"
       && strict_eq (in_password input) (Str "admin")
    then
      let fresh :=
        {| new_username := "admin";
           new_password := Str "admin";
           new_role := in_role input;
           new_firstName := "Admin";
           new_picturePassword := None;
           new_yearGroup :=
             if String.eqb (in_role input) "student" then Some 5 else None |} in
      let '(user, created) :=
        match getUserByUsername "admin" with
        | Some user => (user, [])
        | None => (createUser fresh, [fresh])
        end in
      (UserJson (mkUser (user_id user) (username user) (password user)
                   (in_role input) (firstName user) (picturePassword user)
                   (yearGroup user)),
       mkSession (Some (user_id user)) (Some (in_role input)),
       created)
    else
      match getUserByUsername (in_username input) with
      | None => (Unauthorized "Invalid credentials", session, [])
      | Some user =>
        if negb (String.eqb (role user) (in_role input))
        then (Unauthorized "Invalid role for this user", session, [])
        else
          let accept :=
            (UserJson user,
             mkSession (Some (user_id user)) (Some (role user)), []) in
          match String.eqb (role user) "student", in_picturePassword input with
          | true, Some provided =>
              if isMatch (picturePassword user) provided
              then accept
              else (Unauthorized "Wrong picture password", session, [])
          | _, _ =>
              if negb (strict_eq (password user) (in_password input))
              then (Unauthorized "Invalid password", session, [])
              else accept
          end
      end
  end.

(** [req.session.destroy(...)] and its callback. *)
Definition logout (session : Session) : auth_response * Session :=
  (Message "Logged out", no_session).

(** The [me] handler; [getUser] is the method of [storage] it calls. *)
Definition me (getUser : Z -> option User) (session : Session)
    : auth_response :=
  match Routes.session_user (session_userId session) with
  | None => Unauthorized_empty
  | Some uid =>
      match getUser uid with
      | None => Unauthorized_empty
      | Some user => UserJson user
      end
  end.

(** The submitted credentials are the universal admin pair. *)
Definition is_admin_login (input : LoginInput) : Prop :=
  in_username input = "admin" /\ in_password input = Str "admin".

(** What the handler checks of a found user's secret: the picture password
    for a student who submitted one, the text password otherwise. *)
Definition credentials_ok (user : User) (input : LoginInput) : Prop :=
  match in_picturePassword input with
  | Some provided =>
      if String.eqb (role user) "student"
      then picturePassword user = Some provided
      else password user = in_password input
  | None => password user = in_password input
  end.

(** The same check as the handler computes it. *)
Definition accepts (user : User) (input : LoginInput) : bool :=
  match String.eqb (role user) "student", in_picturePassword input with
  | true, Some provided => isMatch (picturePassword user) provided
  | _, _ => strict_eq (password user) (in_password input)
  end.

(** The users of [seedDatabase], with their serial identifiers. *)
Definition seed_users (name : string) : option User :=
  if String.eqb name "admin"
  then Some (mkUser 1 "admin" (Str "admin") "teacher" "Admin" None None)
  else if String.eqb name "student1"
  then Some (mkUser 2 "student1" (Str "admin") "student" "Alex" None (Some 5))
  else None.

(** [getUser] on the seeded users. *)
Definition seed_user_by_id (uid : Z) : option User :=
  if uid =? 1
  then Some (mkUser 1 "admin" (Str "admin") "teacher" "Admin" None None)
  else if uid =? 2
  then Some (mkUser 2 "student1" (Str "admin") "student" "Alex" None (Some 5))
  else None.

(** A [createUser] that numbers the new user 3. *)
Definition create_third (u : InsertUser) : User :=
  mkUser 3 (new_username u) (new_password u) (new_role u) (new_firstName u)
    (new_picturePassword u) (new_yearGroup u).

End Auth.

(** ** Predicates on stores and components used in the statements below *)

Module Invariants.
Import Routes.

(** Every stored mastery score is 0 or 1. *)
Definition binary_scores (s : Store) : Prop :=
  map_Forall (fun _ m => score m = 0%Q \/ score m = 1%Q) (mastery s).

(** A result is held exactly in the result phase, and a question is
    loaded. *)
Definition result_matches_phase (c : GameEngine.Component) : Prop :=
  is_Some (GameEngine.question c) /\
  (is_Some (GameEngine.result (GameEngine.view c)) <->
   GameEngine.phase (GameEngine.view c) = GameEngine.phase_result).

(** The interstitial's counter is an even number from 0 to 100. *)
Definition progress_in_range (c : GameEngine.Component) : Prop :=
  0 <= GameEngine.gameProgress (GameEngine.view c) <= 100 /\
  Z.even (GameEngine.gameProgress (GameEngine.view c)) = true.

(** The counters agree with the submissions: those already answered
    followed by those in flight are all that were sent. *)
Definition counters_agree (c : GameEngine.Component) : Prop :=
  exists answered : list GameEngine.Submission,
    GameEngine.submitted c = (answered ++ GameEngine.inflight c)%list /\
    GameEngine.questionsAnswered (GameEngine.view c)
      = Z.of_nat (length answered) /\
    0 <= GameEngine.streak (GameEngine.view c)
      <= GameEngine.questionsAnswered (GameEngine.view c) /\
    0 <= GameEngine.score (GameEngine.view c) /\
    Forall (fun sub => 0 <= GameEngine.sub_streak_seen sub)
      (GameEngine.inflight c).

(** In the loading phase a fetch is under way with a callback waiting on
    it. *)
Definition loading_has_fetch (c : GameEngine.Component) : Prop :=
  GameEngine.phase (GameEngine.view c) = GameEngine.phase_loading ->
  GameEngine.isFetching c = true /\ (0 < GameEngine.thens c)%nat.

End Invariants.

(** ** Properties of the handlers *)

Module RoutesSpec.
Import Routes.






(** What [getNextQuestion] answers and leaves behind, call by call. *)
Lemma getNextQuestion_run (s : Store) (uid topic : Z) (random : Q) :
  run (getNextQuestion (Some uid) topic random) s =
  (if uid =? 0 then Status401
   else
     let allQuestions := store_getQuestionsByTopic s topic in
     let target := targetDifficulty (score_or_0 (store_getMastery s uid topic)) in
     if Z.of_nat (length allQuestions) =? 0
     then Status404 "No questions found"
     else
       let candidates := candidateQuestions allQuestions target in
       Json (index candidates
               (Qfloor (random * inject_Z (Z.of_nat (length candidates))))),
   s).
Proof.
  unfold getNextQuestion, session_user.
  destruct (uid =? 0); [reflexivity |].
  cbn [bind getMastery getQuestionsByTopic run].
  destruct (Z.of_nat (length (store_getQuestionsByTopic s topic)) =? 0);
    reflexivity.
Qed.



(** [candidates[Math.floor(Math.random() * candidates.length)]] always hits
    an element of a non-empty array. *)
Lemma index_random {A : Type} (l : list A) (random : Q) :
  (0 <= random)%Q -> (random < 1)%Q -> l <> [] ->
  exists x, index l (Qfloor (random * inject_Z (Z.of_nat (length l)))) = Some x
            /\ In x l.
Proof.
  intros H0 H1 Hne.
  set (n := Z.of_nat (length l)).
  assert (0 < n) as Hn by (destruct l; [congruence | subst n; cbn [length]; lia]).
  assert (0 <= Qfloor (random * inject_Z n)) as Hlo.
  { change 0 with (Qfloor 0). apply Qfloor_resp_le.
    apply Qmult_le_0_compat; [exact H0 |].
    change 0%Q with (inject_Z 0). rewrite <- Zle_Qle. lia. }
  assert (Qfloor (random * inject_Z n) < n) as Hhi.
  { rewrite Zlt_Qlt.
    eapply Qle_lt_trans; [apply Qfloor_le |].
    rewrite <- (Qmult_1_l (inject_Z n)) at 2.
    apply Qmult_lt_compat_r; [| exact H1].
    change 0%Q with (inject_Z 0). rewrite <- Zlt_Qlt. exact Hn. }
  unfold index.
  destruct (Z.ltb_spec (Qfloor (random * inject_Z n)) 0) as [Hneg | _]; [lia |].
  destruct (lookup_lt_is_Some_2 l (Z.to_nat (Qfloor (random * inject_Z n))))
    as [x Hx]; [subst n; lia |].
  exists x. split; [exact Hx |].
  apply list_elem_of_In. eapply list_elem_of_lookup_2, Hx.
Qed.

Lemma candidateQuestions_cases (allQuestions : list Question) (d : Z) :
  let matching := List.filter (fun q => difficulty q =? d) allQuestions in
  (matching <> [] /\ candidateQuestions allQuestions d = matching) \/
  (matching = [] /\ candidateQuestions allQuestions d = allQuestions).
Proof.
  unfold candidateQuestions.
  destruct (List.filter (fun q => difficulty q =? d) allQuestions) as [| q l].
  - right. split; reflexivity.
  - left. split; [discriminate | reflexivity].
Qed.

(** C2. For an authenticated student, [getNextQuestion] answers NotFound
    exactly when the topic has no question; otherwise it answers with a
    question of the requested topic, taken from the topic's questions of the
    target difficulty, or from all the topic's questions when none has that
    difficulty. *)
Theorem getNextQuestion_selects (s : Store) (uid topic : Z) (random : Q) :
  uid <> 0 -> (0 <= random)%Q -> (random < 1)%Q ->
  let allQuestions := store_getQuestionsByTopic s topic in
  let d := targetDifficulty (score_or_0 (store_getMastery s uid topic)) in
  let matching := List.filter (fun q => difficulty q =? d) allQuestions in
  let res := fst (run (getNextQuestion (Some uid) topic random) s) in
  (allQuestions = [] <->
     forall q, In q (questions s) -> topicId q <> topic) /\
  ((exists message, res = Status404 message) <-> allQuestions = []) /\
  (allQuestions <> [] ->
     exists q, res = Json (Some q) /\
       In q (questions s) /\ topicId q = topic /\
       (matching <> [] -> In q matching /\ difficulty q = d) /\
       (matching = [] -> In q allQuestions)).
Proof.
  intros Huid H0 H1 allQuestions d matching res.
  assert (forall q, In q allQuestions <-> In q (questions s) /\ topicId q = topic)
    as Hall.
  { intros q. unfold allQuestions, store_getQuestionsByTopic.
    rewrite filter_In, Z.eqb_eq. reflexivity. }
  assert (res =
          if Z.of_nat (length allQuestions) =? 0
          then Status404 "No questions found"
          else Json (index (candidateQuestions allQuestions d)
                       (Qfloor (random * inject_Z (Z.of_nat
                          (length (candidateQuestions allQuestions d)))))))
    as Hres.
  { unfold res. rewrite getNextQuestion_run.
    apply Z.eqb_neq in Huid. rewrite Huid. reflexivity. }
  split.
  { split.
    - intros Hnil q Hin Htopic.
      assert (In q allQuestions) as Hq by (apply Hall; split; assumption).
      rewrite Hnil in Hq. exact Hq.
    - intros Hno. destruct allQuestions as [| q l] eqn:E; [reflexivity |].
      exfalso. destruct (proj1 (Hall q) (or_introl eq_refl)) as [Hin Ht].
      exact (Hno q Hin Ht). }
  assert (allQuestions <> [] ->
     exists q, res = Json (Some q) /\
       In q (questions s) /\ topicId q = topic /\
       (matching <> [] -> In q matching /\ difficulty q = d) /\
       (matching = [] -> In q allQuestions)) as Hsome.
  { intros Hne.
    assert ((Z.of_nat (length allQuestions) =? 0) = false) as Hlen.
    { apply Z.eqb_neq. destruct allQuestions; [congruence | cbn [length]; lia]. }
    rewrite Hlen in Hres.
    destruct (candidateQuestions_cases allQuestions d) as [[Hm Hc] | [Hm Hc]];
      fold matching in Hm, Hc; rewrite Hc in Hres.
    - destruct (index_random matching random H0 H1 Hm) as (q & Hq & Hin).
      exists q. rewrite Hres, Hq.
      assert (In q allQuestions /\ difficulty q = d) as [Hqa Hqd].
      { unfold matching in Hin. apply filter_In in Hin.
        rewrite Z.eqb_eq in Hin. exact Hin. }
      apply Hall in Hqa. destruct Hqa as [Hqs Hqt].
      repeat split; try assumption. intros Hnil. congruence.
    - destruct (index_random allQuestions random H0 H1 Hne) as (q & Hq & Hin).
      exists q. rewrite Hres, Hq.
      destruct (proj1 (Hall q) Hin) as [Hqs Hqt].
      repeat split; try assumption; intros; congruence. }
  split; [| exact Hsome].
  split.
  - intros [message Hmsg].
    destruct allQuestions as [| q0 l] eqn:E; [reflexivity |].
    destruct Hsome as (q & Hq & _); [discriminate |]. congruence.
  - intros Hnil. exists "No questions found". rewrite Hres, Hnil. reflexivity.
Qed.

Lemma getNextQuestion_selects_witness :
  exists q, fst (run (getNextQuestion (Some 2) 1 (1 # 2)) seed_store) = Json (Some q)
            /\ In q (questions seed_store) /\ topicId q = 1.
Proof.
  destruct (getNextQuestion_selects seed_store 2 1 (1 # 2))
    as (_ & _ & Hsome); [discriminate | discriminate | reflexivity |].
  destruct Hsome as (q & Hq & Hin & Htopic & _); [discriminate |].
  exists q. split; [exact Hq |]. split; [exact Hin | exact Htopic].
Defined.

(** *** submitAnswer *)

Lemma submitAnswer_no_session (s : Store) (userId : option Z) (questionId : Z)
    (answer : string) (timeTaken : Z) :
  session_user userId = None ->
  run (submitAnswer userId questionId answer timeTaken) s = (Status401, s) /\
  calls (submitAnswer userId questionId answer timeTaken) s = [].
Proof. intros H. unfold submitAnswer. rewrite H. split; reflexivity. Qed.

Lemma submitAnswer_not_found (s : Store) (userId : option Z) (uid questionId : Z)
    (answer : string) (timeTaken : Z) :
  session_user userId = Some uid ->
  store_getQuestion s questionId = None ->
  run (submitAnswer userId questionId answer timeTaken) s =
    (Status404 "Question not found", s) /\
  calls (submitAnswer userId questionId answer timeTaken) s =
    [CallGetQuestion questionId].
Proof.
  intros H Hq. unfold submitAnswer. rewrite H.
  cbn [bind getQuestion run calls]. rewrite Hq. split; reflexivity.
Qed.

Lemma submitAnswer_found (s : Store) (userId : option Z) (uid questionId : Z)
    (answer : string) (timeTaken : Z) (question : Question) :
  session_user userId = Some uid ->
  store_getQuestion s questionId = Some question ->
  let isCorrect := String.eqb (correctAnswer question) answer in
  let s' := graded_store s uid questionId question answer timeTaken in
  run (submitAnswer userId questionId answer timeTaken) s =
    (Json {| correct := isCorrect;
             out_correctAnswer := correctAnswer question;
             coinsEarned := if isCorrect then 10 else 0;
             newMastery := score_or_0 (store_getMastery s' uid (topicId question));
             feedback := if isCorrect then "Great job!"
                         else string_or (explanation question) "Keep trying!" |},
     s') /\
  calls (submitAnswer userId questionId answer timeTaken) s =
    [CallGetQuestion questionId;
     CallLogLearningEvent uid questionId isCorrect timeTaken;
     CallUpdateMastery uid (topicId question) (if isCorrect then 1%Q else 0%Q);
     CallGetMastery uid (topicId question)].
Proof.
  intros H Hq. unfold submitAnswer. rewrite H.
  cbn [bind getQuestion run calls]. rewrite Hq. split; reflexivity.
Qed.

Lemma session_user_Some (uid : Z) : uid <> 0 -> session_user (Some uid) = Some uid.
Proof. intros H. unfold session_user. apply Z.eqb_neq in H. rewrite H. reflexivity. Qed.

Lemma graded_store_mastery (s : Store) (uid questionId : Z) (question : Question)
    (answer : string) (timeTaken : Z) :
  store_getMastery (graded_store s uid questionId question answer timeTaken)
    uid (topicId question) =
  Some (mkMastery (if String.eqb (correctAnswer question) answer then 1%Q else 0%Q)).
Proof.
  unfold graded_store, store_getMastery. cbn [mastery store_updateMastery].
  apply lookup_insert_eq.
Qed.

Lemma store_updateMastery_in_range (s : Store) (uid topic : Z) (newScore : Q) :
  (0 <= newScore)%Q -> (newScore <= 1)%Q ->
  scores_in_range s -> scores_in_range (store_updateMastery s uid topic newScore).
Proof.
  intros H0 H1 Hs. unfold scores_in_range. cbn [mastery store_updateMastery].
  apply map_Forall_insert_2; [split; assumption | exact Hs].
Qed.

Lemma submitAnswer_in_range (s : Store) (userId : option Z) (questionId : Z)
    (answer : string) (timeTaken : Z) :
  scores_in_range s ->
  scores_in_range (snd (run (submitAnswer userId questionId answer timeTaken) s)).
Proof.
  intros Hs.
  destruct (session_user userId) as [uid |] eqn:Hu.
  - destruct (store_getQuestion s questionId) as [question |] eqn:Hq.
    + destruct (submitAnswer_found s userId uid questionId answer timeTaken
                  question Hu Hq) as [-> _].
      cbn [snd]. unfold graded_store.
      apply store_updateMastery_in_range; [| | exact Hs].
      * destruct (String.eqb _ _); discriminate.
      * destruct (String.eqb _ _); discriminate.
    + destruct (submitAnswer_not_found s userId uid questionId answer timeTaken
                  Hu Hq) as [-> _].
      exact Hs.
  - destruct (submitAnswer_no_session s userId questionId answer timeTaken Hu)
      as [-> _].
    exact Hs.
Qed.

Lemma getNextQuestion_store (s : Store) (userId : option Z) (topic : Z)
    (random : Q) :
  snd (run (getNextQuestion userId topic random) s) = s /\
  List.filter is_write (calls (getNextQuestion userId topic random) s) = [].
Proof.
  unfold getNextQuestion.
  destruct (session_user userId) as [uid |]; [| split; reflexivity].
  cbn [bind getMastery getQuestionsByTopic run calls].
  destruct (Z.of_nat (length (store_getQuestionsByTopic s topic)) =? 0);
    split; reflexivity.
Qed.

(** C3. After [submitAnswer] on a known question the mastery score of
    (student, topic of the question) is exactly 1.0 if the answer was correct
    and exactly 0.0 if not, whatever it was before; and both handlers keep
    every stored score in [0,1]. *)
Theorem submitAnswer_mastery (s : Store) (uid questionId : Z) (answer : string)
    (timeTaken : Z) (question : Question) :
  uid <> 0 ->
  store_getQuestion s questionId = Some question ->
  let s' := snd (run (submitAnswer (Some uid) questionId answer timeTaken) s) in
  (answer = correctAnswer question ->
     store_getMastery s' uid (topicId question) = Some (mkMastery 1)) /\
  (answer <> correctAnswer question ->
     store_getMastery s' uid (topicId question) = Some (mkMastery 0)) /\
  (forall userId' questionId' answer' timeTaken' s0,
     scores_in_range s0 ->
     scores_in_range
       (snd (run (submitAnswer userId' questionId' answer' timeTaken') s0))) /\
  (forall userId' topic' random' s0,
     scores_in_range s0 ->
     scores_in_range (snd (run (getNextQuestion userId' topic' random') s0))).
Proof.
  intros Huid Hq s'.
  destruct (submitAnswer_found s (Some uid) uid questionId answer timeTaken
              question (session_user_Some uid Huid) Hq) as [Hrun _].
  assert (s' = graded_store s uid questionId question answer timeTaken) as ->
    by (unfold s'; rewrite Hrun; reflexivity).
  rewrite graded_store_mastery.
  split; [| split; [| split]].
  - intros ->. rewrite String.eqb_refl. reflexivity.
  - intros Hne. destruct (String.eqb_spec (correctAnswer question) answer);
      [congruence | reflexivity].
  - intros. apply submitAnswer_in_range. assumption.
  - intros userId' topic' random' s0 Hs0.
    rewrite (proj1 (getNextQuestion_store s0 userId' topic' random')).
    exact Hs0.
Qed.

Lemma submitAnswer_mastery_witness :
  store_getMastery
    (snd (run (submitAnswer (Some 2) 1 "Copper" 4) seed_store)) 2 1
  = Some (mkMastery 1).
Proof.
  destruct (submitAnswer_mastery seed_store 2 1 "Copper" 4
              (mkQuestion 1 1 "Which of these is a good conductor of electricity?"
                 "Copper" ["Wood"; "Plastic"; "Rubber"] 2
                 (Some "Metals like copper allow electricity to flow freely.")))
    as (Hcorrect & _); [discriminate | reflexivity |].
  apply Hcorrect. reflexivity.
Defined.

(** C4, as stated, fails where the explanation is present but empty: on a
    wrong answer the feedback is the fallback string, not the question's
    (empty) explanation. *)
Lemma submitAnswer_feedback_counterexample :
  exists question out,
    store_getQuestion blank_explanation_store 1 = Some question /\
    fst (run (submitAnswer (Some 2) 1 "5" 3) blank_explanation_store) = Json out /\
    correct out = false /\
    explanation question = Some EmptyString /\
    feedback out = "Keep trying!" /\
    feedback out <> EmptyString.
Proof.
  eexists. eexists.
  split; [reflexivity |]. split; [reflexivity |].
  split; [reflexivity |]. split; [reflexivity |].
  split; [reflexivity | discriminate].
Qed.

(** Grading is case-sensitive and does no trimming. *)
Example submitAnswer_case_sensitive :
  fst (run (submitAnswer (Some 2) 1 "copper" 4) seed_store) =
    Json {| correct := false; out_correctAnswer := "Copper"; coinsEarned := 0;
            newMastery := 0;
            feedback := "Metals like copper allow electricity to flow freely." |}
  /\
  fst (run (submitAnswer (Some 2) 1 "Copper " 4) seed_store) =
    Json {| correct := false; out_correctAnswer := "Copper"; coinsEarned := 0;
            newMastery := 0;
            feedback := "Metals like copper allow electricity to flow freely." |}.
Proof. split; reflexivity. Qed.

(** C4 (amended). For every answer submitted to an existing question the
    response is an outcome whose correctness flag holds exactly when the
    submitted string is the question's correct answer, character for
    character; it carries the correct answer, 10 coins when correct and 0
    otherwise, the updated mastery score, and as feedback the fixed string
    "Great job!" when correct and, when incorrect, the question's explanation
    if that is a non-empty string and "Keep trying!" if it is absent or
    empty. *)
Theorem submitAnswer_outcome (s : Store) (uid questionId : Z) (answer : string)
    (timeTaken : Z) (question : Question) :
  uid <> 0 ->
  store_getQuestion s questionId = Some question ->
  exists out,
    run (submitAnswer (Some uid) questionId answer timeTaken) s =
      (Json out, graded_store s uid questionId question answer timeTaken) /\
    (correct out = true <-> answer = correctAnswer question) /\
    out_correctAnswer out = correctAnswer question /\
    coinsEarned out = (if correct out then 10 else 0) /\
    Some (mkMastery (newMastery out)) =
      store_getMastery (graded_store s uid questionId question answer timeTaken)
        uid (topicId question) /\
    newMastery out = (if correct out then 1%Q else 0%Q) /\
    (correct out = true -> feedback out = "Great job!") /\
    (correct out = false ->
       forall e, explanation question = Some e -> e <> EmptyString ->
                 feedback out = e) /\
    (correct out = false ->
       explanation question = None \/ explanation question = Some EmptyString ->
       feedback out = "Keep trying!").
Proof.
  intros Huid Hq.
  destruct (submitAnswer_found s (Some uid) uid questionId answer timeTaken
              question (session_user_Some uid Huid) Hq) as [Hrun _].
  eexists. split; [exact Hrun |].
  cbn [correct out_correctAnswer coinsEarned newMastery feedback].
  rewrite graded_store_mastery.
  destruct (String.eqb_spec (correctAnswer question) answer) as [Heq | Hne].
  - repeat split; try reflexivity; try congruence.
  - repeat split; try reflexivity; try congruence.
    + intros _ e He Hnonempty. rewrite He.
      destruct e; [congruence | reflexivity].
    + intros _ [-> | ->]; reflexivity.
Qed.

Lemma submitAnswer_outcome_witness :
  exists out,
    fst (run (submitAnswer (Some 2) 2 "Wire" 7) seed_store) = Json out /\
    correct out = false /\ coinsEarned out = 0 /\
    feedback out = "A switch opens the circuit gap.".
Proof.
  destruct (submitAnswer_outcome seed_store 2 2 "Wire" 7
              (mkQuestion 2 1 "What component breaks a circuit to stop the flow?"
                 "Switch" ["Battery"; "Bulb"; "Wire"] 3
                 (Some "A switch opens the circuit gap.")))
    as (out & Hrun & Hcorrect & _ & Hcoins & _ & _ & _ & Hexpl & _);
    [discriminate | reflexivity |].
  assert (correct out = false) as Hfalse.
  { destruct (correct out); [| reflexivity].
    destruct Hcorrect as [Hc _]. discriminate (Hc eq_refl). }
  exists out. split; [rewrite Hrun; reflexivity |].
  split; [exact Hfalse |].
  split; [rewrite Hcoins, Hfalse; reflexivity |].
  apply Hexpl; [exact Hfalse | reflexivity | discriminate].
Defined.

(** C5. A successful [submitAnswer] makes exactly two writing calls, one
    [logLearningEvent] and one [updateMastery]: the event log grows by one
    entry holding the student, the question, the correctness and the time
    taken, the mastery table receives one upsert for (student, topic of the
    question), and the questions are untouched; submitting the same answer
    again appends a second, identical entry. *)
Theorem submitAnswer_effects (s : Store) (uid questionId : Z) (answer : string)
    (timeTaken : Z) (out : Outcome) :
  fst (run (submitAnswer (Some uid) questionId answer timeTaken) s) = Json out ->
  exists question,
    store_getQuestion s questionId = Some question /\
    let event := mkLearningEvent uid questionId (correct out) timeTaken in
    let newScore := if correct out then 1%Q else 0%Q in
    let s' := snd (run (submitAnswer (Some uid) questionId answer timeTaken) s) in
    let s'' := snd (run (submitAnswer (Some uid) questionId answer timeTaken) s') in
    List.filter is_write
      (calls (submitAnswer (Some uid) questionId answer timeTaken) s) =
      [CallLogLearningEvent uid questionId (correct out) timeTaken;
       CallUpdateMastery uid (topicId question) newScore] /\
    learningEvents s' = (learningEvents s ++ [event])%list /\
    mastery s' = <[(uid, topicId question) := mkMastery newScore]> (mastery s) /\
    (forall k, k <> (uid, topicId question) -> mastery s' !! k = mastery s !! k) /\
    questions s' = questions s /\
    learningEvents s'' = (learningEvents s ++ [event; event])%list /\
    length (learningEvents s'') = S (S (length (learningEvents s))).
Proof.
  intros Hjson.
  destruct (session_user (Some uid)) as [u |] eqn:Hu.
  2:{ destruct (submitAnswer_no_session s (Some uid) questionId answer timeTaken Hu)
        as [Hrun _].
      rewrite Hrun in Hjson. discriminate. }
  assert (u = uid) as ->.
  { unfold session_user in Hu. destruct (uid =? 0); congruence. }
  destruct (store_getQuestion s questionId) as [question |] eqn:Hq.
  2:{ destruct (submitAnswer_not_found s (Some uid) uid questionId answer
                  timeTaken Hu Hq) as [Hrun _].
      rewrite Hrun in Hjson. discriminate. }
  exists question. split; [reflexivity |].
  destruct (submitAnswer_found s (Some uid) uid questionId answer timeTaken
              question Hu Hq) as [Hrun Hcalls].
  rewrite Hrun in Hjson. cbn [fst] in Hjson.
  injection Hjson as Hout.
  assert (correct out = String.eqb (correctAnswer question) answer) as Hc
    by (rewrite <- Hout; reflexivity).
  rewrite Hrun. cbn [snd]. cbv zeta.
  assert (store_getQuestion
            (graded_store s uid questionId question answer timeTaken) questionId
          = Some question) as Hq' by exact Hq.
  destruct (submitAnswer_found _ (Some uid) uid questionId answer timeTaken
              question Hu Hq') as [Hrun' _].
  rewrite Hrun', Hcalls, Hc. cbn [snd].
  unfold graded_store.
  cbn [List.filter is_write learningEvents mastery questions
       store_updateMastery store_logLearningEvent].
  repeat split.
  - intros k Hk. apply lookup_insert_ne. congruence.
  - rewrite <- app_assoc. reflexivity.
  - rewrite !length_app. cbn [length]. lia.
Qed.

Lemma submitAnswer_effects_witness :
  exists question,
    store_getQuestion seed_store 4 = Some question /\
    learningEvents (snd (run (submitAnswer (Some 2) 4 "8" 3) seed_store)) =
      [mkLearningEvent 2 4 true 3].
Proof.
  destruct (submitAnswer_effects seed_store 2 4 "8" 3
              {| correct := true; out_correctAnswer := "8"; coinsEarned := 10;
                 newMastery := 1;
                 feedback := "Great job!" |})
    as (question & Hq & _ & Hevents & _); [reflexivity |].
  exists question. split; [exact Hq | exact Hevents].
Defined.

(** C10. When [submitAnswer] answers 401 (no session user) or 404 (unknown
    question id) it has made no writing call on the storage and the store is
    as before: no event appended, no mastery record created or changed.  It
    answers 401 exactly when the session has no user, and 404 exactly when it
    has one and the question id is unknown. *)
Theorem submitAnswer_error_no_effect (s : Store) (userId : option Z)
    (questionId : Z) (answer : string) (timeTaken : Z) :
  let res := fst (run (submitAnswer userId questionId answer timeTaken) s) in
  let s' := snd (run (submitAnswer userId questionId answer timeTaken) s) in
  (res = Status401 <-> session_user userId = None) /\
  ((exists message, res = Status404 message) <->
     is_Some (session_user userId) /\ store_getQuestion s questionId = None) /\
  (res = Status401 \/ (exists message, res = Status404 message) ->
     s' = s /\
     learningEvents s' = learningEvents s /\
     mastery s' = mastery s /\
     List.filter is_write
       (calls (submitAnswer userId questionId answer timeTaken) s) = []).
Proof.
  cbv zeta.
  destruct (session_user userId) as [uid |] eqn:Hu.
  - destruct (store_getQuestion s questionId) as [question |] eqn:Hq.
    + destruct (submitAnswer_found s userId uid questionId answer timeTaken
                  question Hu Hq) as [-> ->].
      cbn [fst snd].
      split; [split; discriminate |].
      split.
      * split; [intros [message H]; discriminate | intros [_ H]; discriminate].
      * intros [H | [message H]]; discriminate.
    + destruct (submitAnswer_not_found s userId uid questionId answer timeTaken
                  Hu Hq) as [-> ->].
      cbn [fst snd].
      split; [split; discriminate |].
      split.
      * split; [intros _; split; [eexists |]; reflexivity | intros _; eexists; reflexivity].
      * intros _. repeat split; reflexivity.
  - destruct (submitAnswer_no_session s userId questionId answer timeTaken Hu)
      as [-> ->].
    cbn [fst snd].
    split; [split; reflexivity |].
    split.
    + split; [intros [message H]; discriminate | intros [[x H] _]; discriminate].
    + intros _. repeat split; reflexivity.
Qed.

Lemma submitAnswer_error_no_effect_witness :
  snd (run (submitAnswer (Some 2) 99 "Copper" 4) seed_store) = seed_store /\
  snd (run (submitAnswer None 1 "Copper" 4) seed_store) = seed_store.
Proof.
  split.
  - apply (submitAnswer_error_no_effect seed_store (Some 2) 99 "Copper" 4).
    right. exists "Question not found". reflexivity.
  - apply (submitAnswer_error_no_effect seed_store None 1 "Copper" 4).
    left. reflexivity.
Defined.

End RoutesSpec.

(** ** Properties of the GameEngine component *)

Module GameEngineSpec.
Import Routes GameEngine.

(** *** handleContinue *)

Lemma handleContinue_game (s : State) :
  Z.rem (questionsAnswered s) 3 = 0 -> 0 < questionsAnswered s ->
  handleContinue s =
    (setResult None (setGameProgress (fun _ => 0) (setPhase phase_game s)), []).
Proof.
  intros Hrem Hpos. unfold handleContinue.
  apply Z.eqb_eq in Hrem. rewrite Hrem.
  assert ((questionsAnswered s >? 0) = true) as -> by (apply Z.gtb_lt; lia).
  reflexivity.
Qed.

Lemma handleContinue_loading (s : State) :
  Z.rem (questionsAnswered s) 3 <> 0 \/ questionsAnswered s <= 0 ->
  handleContinue s =
    (setResult None (setPhase phase_loading s), [RefetchThenQuestion]).
Proof.
  intros H. unfold handleContinue.
  destruct (Z.eqb_spec (Z.rem (questionsAnswered s) 3) 0) as [Hrem | Hrem];
    [| reflexivity].
  destruct H as [H | H]; [contradiction |].
  assert ((questionsAnswered s >? 0) = false) as ->; [| reflexivity].
  rewrite Z.gtb_ltb. apply Z.ltb_ge. exact H.
Qed.

Lemma positive_multiple_of_3 (n : Z) :
  (exists k, 0 < k /\ n = 3 * k) <-> Z.rem n 3 = 0 /\ 0 < n.
Proof.
  split.
  - intros (k & Hk & ->). split; [| lia].
    rewrite Z.mul_comm. apply Z.rem_mul. lia.
  - intros [Hrem Hpos]. exists (Z.quot n 3).
    pose proof (Z.quot_rem' n 3) as H. rewrite Hrem in H. lia.
Qed.

(** C6, as stated, has the 6th continue enter [loading]; in the session of
    six answered questions it enters [game]. *)
Lemma sixth_continue_counterexample :
  let first := mkQuestion 1 1 "Which of these is a good conductor of electricity?"
                 "Copper" ["Wood"; "Plastic"; "Rubber"] 2 None in
  let data := mkOutcome true "Copper" 10 1 "Great job!" in
  let c := steps (mounted first 0) (timed (session "Copper" data first 6)) in
  questionsAnswered (view c) = 6 /\
  phase (view c) = phase_game /\
  phase (view c) <> phase_loading.
Proof.
  cbv zeta.
  match goal with
  | |- _ /\ ?p = _ /\ _ =>
      assert (p = phase_game) as -> by (vm_compute; reflexivity)
  end.
  split; [vm_compute; reflexivity |]. split; [reflexivity | discriminate].
Qed.

(** C6 (amended). In the result phase, continue leads to [game] exactly when
    [questionsAnswered] is a positive multiple of 3, and otherwise to
    [loading] with a fetch under way, whose settling leads to [question]; in
    a session, whatever is answered, the 1st and 2nd continue enter
    [loading], the 3rd enters [game], the 4th and 5th enter [loading] and
    the 6th enters [game] again, and each [loading] is followed by
    [question]. *)
Theorem continue_transitions (c : Component) (now now' : Z) (next : Question) :
  continue_clickable c = true ->
  let n := questionsAnswered (view c) in
  let c1 := step now ClickContinue c in
  (phase (view c1) = phase_game <-> exists k, 0 < k /\ n = 3 * k) /\
  (phase (view c1) <> phase_game ->
     phase (view c1) = phase_loading /\
     isFetching c1 = true /\
     phase (view (step now' (FetchSettled next) c1)) = phase_question) /\
  result (view c1) = None /\
  (forall (first next : Question) (answer : string) (data : Outcome) (t0 : Z),
     let after k :=
       steps (mounted first t0) (timed (session answer data next k)) in
     let settled k :=
       steps (mounted first t0)
         (timed (session answer data next k ++ settle next)) in
     map (fun k => questionsAnswered (view (after k))) [1; 2; 3; 4; 5; 6]%nat
       = [1; 2; 3; 4; 5; 6] /\
     map (fun k => phase (view (after k))) [1; 2; 3; 4; 5; 6]%nat
       = [phase_loading; phase_loading; phase_game;
          phase_loading; phase_loading; phase_game] /\
     map (fun k => phase (view (settled k))) [1; 2; 3; 4; 5; 6]%nat
       = [phase_question; phase_question; phase_question;
          phase_question; phase_question; phase_question]).
Proof.
  intros Hclick n c1.
  assert (phase (view c) = phase_result) as Hphase.
  { unfold continue_clickable in Hclick.
    destruct (phase (view c)); try reflexivity;
      cbn in Hclick; rewrite ?andb_false_r in Hclick; discriminate. }
  assert (c1 =
          if (Z.rem n 3 =? 0) && (n >? 0)
          then with_view (setResult None (setGameProgress (fun _ => 0)
                            (setPhase phase_game (view c)))) c
          else perform RefetchThenQuestion
                 (with_view (setResult None (setPhase phase_loading (view c))) c))
    as Hc1.
  { unfold c1, step, dispatch. rewrite Hclick.
    unfold handleContinue. fold n.
    destruct ((Z.rem n 3 =? 0) && (n >? 0)); cbn; rewrite Hphase; cbn;
      unfold questionEffect; cbn; rewrite ?andb_false_r; reflexivity. }
  rewrite positive_multiple_of_3. fold n.
  destruct (Z.eqb_spec (Z.rem n 3) 0) as [Hrem | Hrem];
    [destruct (Z.gtb_spec n 0) as [Hpos | Hpos] |];
    cbn [andb] in Hc1; rewrite Hc1.
  - split; [split; [intros _; split; [exact Hrem | lia] | reflexivity] |].
    split; [intros H; exfalso; apply H; reflexivity |].
    split; [reflexivity |].
    intros first next0 answer data t0.
    destruct data as [[] ? ? ? ?]; vm_compute; repeat split.
  - split; [split; [discriminate | intros [_ H]; lia] |].
    split; [intros _; repeat split |].
    split; [reflexivity |].
    intros first next0 answer data t0.
    destruct data as [[] ? ? ? ?]; vm_compute; repeat split.
  - split; [split; [discriminate | intros [H _]; contradiction] |].
    split; [intros _; repeat split |].
    split; [reflexivity |].
    intros first next0 answer data t0.
    destruct data as [[] ? ? ? ?]; vm_compute; repeat split.
Qed.

Lemma continue_transitions_witness :
  phase (view (step 9000 ClickContinue third_result)) = phase_game.
Proof.
  apply (proj1 (continue_transitions third_result 9000 9500 switch_question
                  eq_refl)).
  exists 1. split; [lia | reflexivity].
Defined.

(** *** The game-phase interval *)







(** *** handleAnswer *)

Lemma handleAnswer_guard (q : Question) (now : Z) (answer : string) (s : State) :
  result s <> None \/ phase s <> phase_question ->
  handleAnswer q now answer s = (s, []).
Proof.
  intros H. unfold handleAnswer.
  destruct (result s) as [r |]; [reflexivity |].
  destruct H as [H | H]; [congruence |].
  destruct (phase s); [congruence | reflexivity ..].
Qed.

Lemma handleAnswer_submits (q : Question) (now : Z) (answer : string) (s : State) :
  result s = None -> phase s = phase_question ->
  handleAnswer q now answer s =
    (setSelectedAnswer (Some answer) s,
     [SubmitAnswer (id q) answer (round_seconds (now - startTime s)) (streak s)]).
Proof. intros Hr Hp. unfold handleAnswer. rewrite Hr, Hp. reflexivity. Qed.

Lemma onSuccess_result (streak_seen : Z) (data : Outcome) (s : State) :
  phase (fst (onSuccess streak_seen data s)) = phase_result /\
  is_Some (result (fst (onSuccess streak_seen data s))) /\
  questionsAnswered (fst (onSuccess streak_seen data s)) = questionsAnswered s + 1.
Proof.
  unfold onSuccess. destruct (correct data); cbn; repeat split; eexists; reflexivity.
Qed.

(** Once a result is shown, or outside the question phase, a click on an
    option changes nothing and sends nothing. *)
Lemma click_after_result_ignored (now : Z) (answer : string) (c : Component) :
  result (view c) <> None \/ phase (view c) <> phase_question ->
  step now (ClickOption answer) c = c.
Proof.
  intros H.
  assert (dispatch now (ClickOption answer) c = c) as Hd.
  { unfold dispatch. destruct (question c) as [q |]; [| reflexivity].
    destruct (options_clickable c); [| reflexivity].
    rewrite handleAnswer_guard by exact H.
    destruct c as [? ? ? ? ? ?]. reflexivity. }
  unfold step. rewrite Hd.
  destruct (phase (view c)); reflexivity.
Qed.

(** C8 at two clicks made before the first response arrives: the phase is
    still [question] and no result is there, so the second click is
    submitted as well; the server grades both and logs two events for the
    one question. *)
Theorem second_click_before_response :
  let c := steps (mounted switch_question 0)
             (timed [ClickOption "Battery"; ClickOption "Switch"]) in
  phase (view c) = phase_question /\
  result (view c) = None /\
  options_clickable c = true /\
  submitted c = [mkSubmission 2 "Battery" 1 0; mkSubmission 2 "Switch" 2 0] /\
  learningEvents (serve 2 (submitted c) seed_store) =
    [mkLearningEvent 2 2 false 1; mkLearningEvent 2 2 true 2].
Proof. cbv zeta. repeat split; vm_compute; reflexivity. Qed.

(** *** allOptions *)

Lemma insert_element_perm (random : nat -> Q) (element : string)
    (prefix_rev : list string) :
  forall n, Permutation (element :: prefix_rev)
              (fst (insert_element random n element prefix_rev)).
Proof.
  induction prefix_rev as [| tmp rest IH]; intros n; cbn [insert_element].
  - reflexivity.
  - destruct (order_positive (random n)).
    + specialize (IH (S n)).
      destruct (insert_element random (S n) element rest) as [l n'].
      cbn [fst] in *.
      rewrite perm_swap. apply perm_skip. exact IH.
    + reflexivity.
Qed.

Lemma insertion_sort_perm (random : nat -> Q) (rest : list string) :
  forall n prefix_rev,
    Permutation (prefix_rev ++ rest) (insertion_sort random n prefix_rev rest).
Proof.
  induction rest as [| element rest IH]; intros n prefix_rev;
    cbn [insertion_sort].
  - rewrite app_nil_r. apply Permutation_rev.
  - pose proof (insert_element_perm random element prefix_rev n) as Hins.
    destruct (insert_element random n element prefix_rev) as [prefix_rev' n'].
    cbn [fst] in Hins.
    rewrite <- IH.
    rewrite <- Permutation_middle.
    apply (Permutation_app_tail rest Hins).
Qed.

(** C9. Whatever [Math.random()] returns during the sort, the options shown
    are a rearrangement of the correct answer followed by the distractors:
    the same strings, each as often as before; so when the correct answer is
    not among the distractors it is shown exactly once. *)
Theorem allOptions_shuffle (q : Question) (random : nat -> Q) :
  ~ In (correctAnswer q) (distractors q) ->
  Permutation (correctAnswer q :: distractors q) (allOptions q random) /\
  (forall o, In o (allOptions q random) <->
             o = correctAnswer q \/ In o (distractors q)) /\
  count_occ string_dec (allOptions q random) (correctAnswer q) = 1%nat /\
  (forall o, o <> correctAnswer q ->
     count_occ string_dec (allOptions q random) o =
     count_occ string_dec (distractors q) o) /\
  length (allOptions q random) = S (length (distractors q)).
Proof.
  intros Hnot.
  assert (Permutation (correctAnswer q :: distractors q) (allOptions q random))
    as Hperm by apply (insertion_sort_perm random _ 0%nat []).
  split; [exact Hperm |].
  split; [| split; [| split]].
  - intros o. split.
    + intros Hin. apply (Permutation_in _ (Permutation_sym Hperm)) in Hin.
      destruct Hin as [<- | Hin]; [left; reflexivity | right; exact Hin].
    + intros H. apply (Permutation_in _ Hperm).
      destruct H as [-> | H]; [left; reflexivity | right; exact H].
  - rewrite <- (proj1 (Permutation_count_occ string_dec _ _) Hperm).
    rewrite count_occ_cons_eq by reflexivity.
    f_equal. apply count_occ_not_In. exact Hnot.
  - intros o Ho.
    rewrite <- (proj1 (Permutation_count_occ string_dec _ _) Hperm).
    apply count_occ_cons_neq. congruence.
  - rewrite <- (Permutation_length Hperm). reflexivity.
Qed.

Lemma allOptions_shuffle_witness :
  Permutation ["Switch"; "Battery"; "Bulb"; "Wire"]
    (allOptions switch_question (fun n => if Nat.even n then 3 # 4 else 1 # 4)).
Proof.
  refine (proj1 (allOptions_shuffle switch_question
                   (fun n => if Nat.even n then 3 # 4 else 1 # 4) _)).
  cbn. intros [H | [H | [H | H]]]; try discriminate H. exact H.
Defined.

End GameEngineSpec.

(** ** Further properties of the learning handlers *)

Module RoutesExtra.
Import Routes Invariants RoutesSpec.




Lemma store_updateMastery_binary (s : Store) (uid topic : Z) (b : bool) :
  binary_scores s ->
  binary_scores (store_updateMastery s uid topic (if b then 1%Q else 0%Q)).
Proof.
  intros Hs. unfold binary_scores. cbn [mastery store_updateMastery].
  apply map_Forall_insert_2; [| exact Hs].
  destruct b; [right | left]; reflexivity.
Qed.

Lemma submitAnswer_binary (s : Store) (userId : option Z) (questionId : Z)
    (answer : string) (timeTaken : Z) :
  binary_scores s ->
  binary_scores (snd (run (submitAnswer userId questionId answer timeTaken) s)).
Proof.
  intros Hs.
  destruct (session_user userId) as [uid |] eqn:Hu.
  - destruct (store_getQuestion s questionId) as [question |] eqn:Hq.
    + destruct (submitAnswer_found s userId uid questionId answer timeTaken
                  question Hu Hq) as [-> _].
      cbn [snd]. unfold graded_store.
      apply store_updateMastery_binary. exact Hs.
    + destruct (submitAnswer_not_found s userId uid questionId answer timeTaken
                  Hu Hq) as [-> _].
      exact Hs.
  - destruct (submitAnswer_no_session s userId questionId answer timeTaken Hu)
      as [-> _].
    exact Hs.
Qed.

(** X2. The handlers only ever write the scores 0 and 1: a store whose
    scores are all 0 or 1 (the seeded store has none) stays so under both
    handlers, and for such a store the target difficulty of every student
    and topic is 1 or 5, so that a question of difficulty 2, 3 or 4 is only
    ever served when the topic has no question of the target difficulty. *)
Theorem scores_stay_binary (s : Store) :
  binary_scores s ->
  (forall userId questionId answer timeTaken,
     binary_scores
       (snd (run (submitAnswer userId questionId answer timeTaken) s))) /\
  (forall userId topic random,
     binary_scores (snd (run (getNextQuestion userId topic random) s))) /\
  (forall uid topic,
     let d := targetDifficulty (score_or_0 (store_getMastery s uid topic)) in
     d = 1 \/ d = 5) /\
  (forall uid topic random q,
     fst (run (getNextQuestion (Some uid) topic random) s) = Json (Some q) ->
     2 <= difficulty q <= 4 ->
     forall q', In q' (store_getQuestionsByTopic s topic) ->
       difficulty q' <>
       targetDifficulty (score_or_0 (store_getMastery s uid topic))).
Proof.
  intros Hs.
  assert (forall uid topic,
            targetDifficulty (score_or_0 (store_getMastery s uid topic)) = 1 \/
            targetDifficulty (score_or_0 (store_getMastery s uid topic)) = 5)
    as Hd.
  { intros uid topic. unfold store_getMastery.
    destruct (mastery s !! (uid, topic)) as [r |] eqn:Hr; [| left; reflexivity].
    destruct (Hs _ _ Hr) as [H0 | H1]; unfold score_or_0.
    - rewrite H0. left. reflexivity.
    - rewrite H1. right. reflexivity. }
  split; [intros; apply submitAnswer_binary; exact Hs |].
  split.
  { intros userId topic random.
    rewrite (proj1 (getNextQuestion_store s userId topic random)). exact Hs. }
  split; [exact Hd |].
  intros uid topic random q Hres Hdiff q' Hin Heq.
  rewrite getNextQuestion_run in Hres. cbn [fst] in Hres.
  destruct (uid =? 0); [discriminate |].
  cbv zeta in Hres.
  destruct (Z.of_nat (length (store_getQuestionsByTopic s topic)) =? 0);
    [discriminate |].
  injection Hres as Hidx.
  set (d := targetDifficulty (score_or_0 (store_getMastery s uid topic))) in *.
  destruct (candidateQuestions_cases (store_getQuestionsByTopic s topic) d)
    as [[Hm Hc] | [Hm Hc]]; cbv zeta in Hm, Hc.
  - rewrite Hc in Hidx. unfold index in Hidx.
    destruct (_ <? 0); [discriminate |].
    apply list_elem_of_lookup_2, list_elem_of_In, filter_In in Hidx.
    destruct Hidx as [_ Hqd]. apply Z.eqb_eq in Hqd.
    destruct (Hd uid topic) as [H | H]; fold d in H; lia.
  - assert (In q' (List.filter (fun q => difficulty q =? d)
                     (store_getQuestionsByTopic s topic))) as Hq'.
    { apply filter_In. split; [exact Hin | apply Z.eqb_eq; exact Heq]. }
    rewrite Hm in Hq'. exact Hq'.
Qed.

Lemma scores_stay_binary_witness :
  binary_scores (snd (run (submitAnswer (Some 2) 1 "Copper" 4) seed_store)) /\
  targetDifficulty
    (score_or_0
       (store_getMastery
          (snd (run (submitAnswer (Some 2) 1 "Copper" 4) seed_store)) 2 1)) = 5.
Proof.
  assert (binary_scores seed_store) as Hseed.
  { unfold binary_scores, seed_store. cbn [mastery]. apply map_Forall_empty. }
  split.
  - apply (proj1 (scores_stay_binary seed_store Hseed)).
  - reflexivity.
Defined.

(** X3. [getNextQuestion] never writes: whatever the session, topic and
    random draw, the store is left as it was and no writing call is made;
    it answers 401 exactly when the session holds no user id or the id 0,
    and then without any call on the storage. *)
Theorem getNextQuestion_read_only (s : Store) (userId : option Z) (topic : Z)
    (random : Q) :
  snd (run (getNextQuestion userId topic random) s) = s /\
  List.filter is_write (calls (getNextQuestion userId topic random) s) = [] /\
  (fst (run (getNextQuestion userId topic random) s) = Status401 <->
   userId = None \/ userId = Some 0) /\
  (userId = None \/ userId = Some 0 ->
   calls (getNextQuestion userId topic random) s = []).
Proof.
  destruct (getNextQuestion_store s userId topic random) as [Hstore Hwrites].
  split; [exact Hstore |]. split; [exact Hwrites |].
  destruct userId as [uid |].
  - rewrite getNextQuestion_run. cbn [fst].
    unfold getNextQuestion, session_user.
    destruct (Z.eqb_spec uid 0) as [-> | Hne].
    + split; [split; [intros _; right; reflexivity | reflexivity] | reflexivity].
    + split.
      * split.
        -- cbv zeta.
           destruct (Z.of_nat (length (store_getQuestionsByTopic s topic)) =? 0);
             discriminate.
        -- intros [H | H]; [discriminate | congruence].
      * intros [H | H]; [discriminate | congruence].
  - split; [split; [intros _; left; reflexivity | reflexivity] | reflexivity].
Qed.

Lemma getNextQuestion_matching (s : Store) (uid topic : Z) (random : Q) :
  uid <> 0 -> (0 <= random)%Q -> (random < 1)%Q ->
  let d := targetDifficulty (score_or_0 (store_getMastery s uid topic)) in
  (exists q0, In q0 (store_getQuestionsByTopic s topic) /\ difficulty q0 = d) ->
  exists q, fst (run (getNextQuestion (Some uid) topic random) s) = Json (Some q)
            /\ In q (store_getQuestionsByTopic s topic) /\ difficulty q = d.
Proof.
  intros Huid H0 H1 d (q0 & Hin0 & Hd0).
  rewrite getNextQuestion_run. cbn [fst].
  apply Z.eqb_neq in Huid. rewrite Huid. cbv zeta. fold d.
  assert ((Z.of_nat (length (store_getQuestionsByTopic s topic)) =? 0) = false)
    as ->.
  { apply Z.eqb_neq. destruct (store_getQuestionsByTopic s topic);
      [contradiction | cbn [length]; lia]. }
  assert (In q0 (List.filter (fun q => difficulty q =? d)
                   (store_getQuestionsByTopic s topic))) as Hq0.
  { apply filter_In. split; [exact Hin0 | apply Z.eqb_eq; exact Hd0]. }
  destruct (candidateQuestions_cases (store_getQuestionsByTopic s topic) d)
    as [[Hm Hc] | [Hm Hc]]; cbv zeta in Hm, Hc.
  - rewrite Hc.
    destruct (index_random _ random H0 H1 Hm) as (q & Hq & Hin).
    exists q. rewrite Hq. split; [reflexivity |].
    apply filter_In in Hin. rewrite Z.eqb_eq in Hin. exact Hin.
  - rewrite Hm in Hq0. contradiction.
Qed.

(** X4. One answer swings the difficulty to the extreme, whatever the
    mastery was before: right after a correct answer to a question of a
    topic that has a question of difficulty 5, the student's next question
    for that topic has difficulty 5; right after a wrong answer, if the topic
    has a question of difficulty 1, it has difficulty 1. *)
Theorem next_question_after_answer (s : Store) (uid questionId : Z)
    (answer : string) (timeTaken : Z) (question : Question) (random : Q) :
  uid <> 0 -> (0 <= random)%Q -> (random < 1)%Q ->
  store_getQuestion s questionId = Some question ->
  let s' := snd (run (submitAnswer (Some uid) questionId answer timeTaken) s) in
  let d := if String.eqb (correctAnswer question) answer then 5 else 1 in
  (exists q0, In q0 (questions s) /\ topicId q0 = topicId question
              /\ difficulty q0 = d) ->
  exists q,
    fst (run (getNextQuestion (Some uid) (topicId question) random) s')
      = Json (Some q) /\
    topicId q = topicId question /\ difficulty q = d.
Proof.
  intros Huid H0 H1 Hq s' d (q0 & Hin0 & Ht0 & Hd0).
  destruct (submitAnswer_found s (Some uid) uid questionId answer timeTaken
              question (session_user_Some uid Huid) Hq) as [Hrun _].
  assert (s' = graded_store s uid questionId question answer timeTaken) as Hs'
    by (unfold s'; rewrite Hrun; reflexivity).
  assert (targetDifficulty
            (score_or_0 (store_getMastery s' uid (topicId question))) = d) as Hd.
  { rewrite Hs', graded_store_mastery. unfold d.
    destruct (String.eqb (correctAnswer question) answer); reflexivity. }
  assert (store_getQuestionsByTopic s' (topicId question) =
          store_getQuestionsByTopic s (topicId question)) as Hsame
    by (rewrite Hs'; reflexivity).
  destruct (getNextQuestion_matching s' uid (topicId question) random Huid H0 H1)
    as (q & Hres & Hin & Hdq).
  { exists q0. rewrite Hsame, Hd. split; [| exact Hd0].
    apply filter_In. split; [exact Hin0 | apply Z.eqb_eq; exact Ht0]. }
  exists q. split; [exact Hres |].
  rewrite Hd in Hdq. split; [| exact Hdq].
  rewrite Hsame in Hin. apply filter_In in Hin.
  apply Z.eqb_eq. exact (proj2 Hin).
Qed.

Lemma next_question_after_answer_witness :
  exists q,
    fst (run (getNextQuestion (Some 2) 3 (1 # 3))
           (snd (run (submitAnswer (Some 2) 3 "Venus" 6) seed_store)))
      = Json (Some q) /\
    topicId q = 3 /\ difficulty q = 1.
Proof.
  refine (next_question_after_answer seed_store 2 3 "Venus" 6
            (mkQuestion 3 3 "Which planet is closest to the Sun?"
               "Mercury" ["Venus"; "Earth"; "Mars"] 2
               (Some "Mercury is the first planet."))
            (1 # 3) _ _ _ eq_refl _);
    [discriminate | discriminate | reflexivity |].
  exists (mkQuestion 4 3 "How many planets are in our solar system?"
            "8" ["7"; "9"; "10"] 1
            (Some "There are 8 planets in our solar system.")).
  split; [| split; reflexivity].
  cbn. right. right. right. left. reflexivity.
Defined.

(** X5. An answer only moves the mastery of its own student and topic: what
    [getNextQuestion] answers to any other student, or to the same student
    for any other topic, is the same before and after a [submitAnswer]. *)
Theorem submitAnswer_frame (s : Store) (userId : option Z) (questionId : Z)
    (answer : string) (timeTaken : Z) (uid' topic' : Z) (random : Q) :
  (forall uid question,
     session_user userId = Some uid ->
     store_getQuestion s questionId = Some question ->
     (uid', topic') <> (uid, topicId question)) ->
  fst (run (getNextQuestion (Some uid') topic' random)
         (snd (run (submitAnswer userId questionId answer timeTaken) s))) =
  fst (run (getNextQuestion (Some uid') topic' random) s).
Proof.
  intros Hother.
  destruct (session_user userId) as [uid |] eqn:Hu.
  - destruct (store_getQuestion s questionId) as [question |] eqn:Hq.
    + destruct (submitAnswer_found s userId uid questionId answer timeTaken
                  question Hu Hq) as [-> _].
      cbn [snd]. rewrite !getNextQuestion_run. cbn [fst].
      assert (store_getMastery
                (graded_store s uid questionId question answer timeTaken)
                uid' topic' = store_getMastery s uid' topic') as ->.
      { unfold graded_store, store_getMastery.
        cbn [mastery store_updateMastery store_logLearningEvent].
        apply lookup_insert_ne. intros Heq.
        exact (Hother uid question eq_refl eq_refl (eq_sym Heq)). }
      reflexivity.
    + destruct (submitAnswer_not_found s userId uid questionId answer timeTaken
                  Hu Hq) as [-> _].
      reflexivity.
  - destruct (submitAnswer_no_session s userId questionId answer timeTaken Hu)
      as [-> _].
    reflexivity.
Qed.

Lemma submitAnswer_frame_witness :
  fst (run (getNextQuestion (Some 2) 3 (1 # 3))
         (snd (run (submitAnswer (Some 2) 1 "Copper" 4) seed_store))) =
  fst (run (getNextQuestion (Some 2) 3 (1 # 3)) seed_store).
Proof.
  apply (submitAnswer_frame seed_store (Some 2) 1 "Copper" 4 2 3 (1 # 3)).
  intros uid question Hu Hq.
  injection Hq as <-. cbn. congruence.
Defined.

(** X23. Only the last answer counts: after two graded answers of one
    student to questions of the same topic, the mastery table is the same as
    if only the second had been given; in particular repeating an answer
    changes nothing in the mastery table. *)
Theorem last_answer_wins (s : Store) (uid q1 q2 : Z) (a1 a2 : string)
    (t1 t2 : Z) (question1 question2 : Question) :
  uid <> 0 ->
  store_getQuestion s q1 = Some question1 ->
  store_getQuestion s q2 = Some question2 ->
  topicId question1 = topicId question2 ->
  mastery (snd (run (submitAnswer (Some uid) q2 a2 t2)
                  (snd (run (submitAnswer (Some uid) q1 a1 t1) s)))) =
  mastery (snd (run (submitAnswer (Some uid) q2 a2 t2) s)).
Proof.
  intros Huid Hq1 Hq2 Htopic.
  pose proof (session_user_Some uid Huid) as Hu.
  destruct (submitAnswer_found s (Some uid) uid q1 a1 t1 question1 Hu Hq1)
    as [-> _].
  destruct (submitAnswer_found s (Some uid) uid q2 a2 t2 question2 Hu Hq2)
    as [-> _].
  cbn [snd].
  assert (store_getQuestion (graded_store s uid q1 question1 a1 t1) q2
          = Some question2) as Hq2' by exact Hq2.
  destruct (submitAnswer_found _ (Some uid) uid q2 a2 t2 question2 Hu Hq2')
    as [-> _].
  cbn [snd]. unfold graded_store.
  cbn [mastery store_updateMastery store_logLearningEvent].
  rewrite Htopic. apply insert_insert_eq.
Qed.

Lemma last_answer_wins_witness :
  mastery (snd (run (submitAnswer (Some 2) 4 "8" 3)
                  (snd (run (submitAnswer (Some 2) 3 "Venus" 9) seed_store)))) =
  mastery (snd (run (submitAnswer (Some 2) 4 "8" 3) seed_store)).
Proof.
  apply (last_answer_wins seed_store 2 3 4 "Venus" "8" 9 3
           (mkQuestion 3 3 "Which planet is closest to the Sun?"
              "Mercury" ["Venus"; "Earth"; "Mars"] 2
              (Some "Mercury is the first planet."))
           (mkQuestion 4 3 "How many planets are in our solar system?"
              "8" ["7"; "9"; "10"] 1
              (Some "There are 8 planets in our solar system.")));
    [discriminate | reflexivity | reflexivity | reflexivity].
Defined.



End RoutesExtra.

(** ** Properties of the topic list *)

Module TopicsSpec.
Import Routes Topics RoutesSpec.

Lemma run_bind {A B : Type} (p : storage A) (f : A -> storage B) (s : Store) :
  run (bind p f) s = run (f (fst (run p s))) (snd (run p s)).
Proof.
  revert s. induction p as [a | u t k IH | t k IH | q k IH | u q c t k IH | u t sc k IH];
    intros s; cbn [bind run]; auto.
Qed.

Lemma calls_bind {A B : Type} (p : storage A) (f : A -> storage B) (s : Store) :
  calls (bind p f) s =
  (calls p s ++ calls (f (fst (run p s))) (snd (run p s)))%list.
Proof.
  revert s. induction p as [a | u t k IH | t k IH | q k IH | u q c t k IH | u t sc k IH];
    intros s; cbn [bind run calls app]; try rewrite IH; auto.
Qed.

Lemma topicsWithMastery_run (uid : Z) (topics : list Topic) (s : Store) :
  run (topicsWithMastery uid topics) s =
    (map (fun t => (t, score_or_0 (store_getMastery s uid (topic_id t)))) topics,
     s) /\
  calls (topicsWithMastery uid topics) s =
    map (fun t => CallGetMastery uid (topic_id t)) topics.
Proof.
  induction topics as [| t rest [IHrun IHcalls]]; [split; reflexivity |].
  cbn [topicsWithMastery getMastery bind run calls map].
  rewrite run_bind, calls_bind, IHrun, IHcalls. cbn [fst snd run calls].
  rewrite app_nil_r. split; reflexivity.
Qed.

Lemma getTopics_student (s : Store) (uid : Z) (userId : option Z)
    (subject : option Q) (allTopics : list Topic) :
  session_user userId = Some uid ->
  run (getTopics (Some "student") userId subject allTopics) s =
    (WithMastery
       (map (fun t => (t, score_or_0 (store_getMastery s uid (topic_id t))))
          (filteredTopics subject allTopics)), s) /\
  calls (getTopics (Some "student") userId subject allTopics) s =
    map (fun t => CallGetMastery uid (topic_id t))
      (filteredTopics subject allTopics).
Proof.
  intros Hu. unfold getTopics. rewrite Hu, String.eqb_refl.
  destruct (topicsWithMastery_run uid (filteredTopics subject allTopics) s)
    as [Hrun Hcalls].
  rewrite run_bind, calls_bind, Hrun, Hcalls. cbn [fst snd run calls].
  rewrite app_nil_r. split; reflexivity.
Qed.

Lemma getTopics_plain (s : Store) (role : option string) (userId : option Z)
    (subject : option Q) (allTopics : list Topic) :
  role <> Some "student" \/ session_user userId = None ->
  run (getTopics role userId subject allTopics) s =
    (Plain (filteredTopics subject allTopics), s) /\
  calls (getTopics role userId subject allTopics) s = [].
Proof.
  intros H. unfold getTopics.
  destruct role as [r |]; [| split; reflexivity].
  destruct (session_user userId) as [uid |]; [| split; reflexivity].
  destruct (String.eqb_spec r "student") as [-> | Hne]; [| split; reflexivity].
  destruct H as [H | H]; congruence.
Qed.

(** X6. For a student session [getTopics] answers with every listed topic
    carrying that student's stored score for it, or 0 when no record
    exists, after one mastery read per listed topic in list order; for any
    other session it answers with the bare topics and reads nothing; in
    both cases nothing is written and the store is unchanged. *)
Theorem getTopics_attaches_mastery (s : Store) (role : option string)
    (userId : option Z) (subject : option Q) (allTopics : list Topic) :
  let h := getTopics role userId subject allTopics in
  let topics := filteredTopics subject allTopics in
  snd (run h s) = s /\
  List.filter is_write (calls h s) = [] /\
  (forall uid,
     role = Some "student" -> session_user userId = Some uid ->
     fst (run h s) =
       WithMastery
         (map (fun t =>
                 (t, match store_getMastery s uid (topic_id t) with
                     | Some r => if Qeq_bool (score r) 0 then 0%Q else score r
                     | None => 0%Q
                     end)) topics) /\
     calls h s = map (fun t => CallGetMastery uid (topic_id t)) topics) /\
  (role <> Some "student" \/ session_user userId = None ->
   fst (run h s) = Plain topics /\ calls h s = []).
Proof.
  cbv zeta.
  assert (role = Some "student" /\ (exists uid, session_user userId = Some uid)
          \/ (role <> Some "student" \/ session_user userId = None)) as Hcase.
  { destruct role as [r |]; [| right; left; discriminate].
    destruct (String.eqb_spec r "student") as [-> | Hne];
      [| right; left; congruence].
    destruct (session_user userId) as [uid |];
      [left; split; [reflexivity | exists uid; reflexivity] | right; right; reflexivity]. }
  destruct Hcase as [[-> [uid Hu]] | Hplain].
  - destruct (getTopics_student s uid userId subject allTopics Hu)
      as [Hrun Hcalls].
    rewrite Hrun, Hcalls. cbn [fst snd].
    split; [reflexivity |].
    split.
    { clear Hrun Hcalls.
      induction (filteredTopics subject allTopics) as [| t l IH];
        [reflexivity | exact IH]. }
    split.
    + intros uid0 _ Hu0. assert (uid0 = uid) as -> by congruence.
      split; reflexivity.
    + intros [H | H]; congruence.
  - destruct (getTopics_plain s role userId subject allTopics Hplain)
      as [Hrun Hcalls].
    rewrite Hrun, Hcalls. cbn [fst snd].
    split; [reflexivity |]. split; [reflexivity |].
    split; [| intros _; split; reflexivity].
    intros uid Hr Hu. destruct Hplain as [H | H]; congruence.
Qed.

Lemma getTopics_attaches_mastery_aux (s : Store) (role : option string)
    (userId : option Z) (subject : option Q) (allTopics : list Topic) :
  (exists l, fst (run (getTopics role userId subject allTopics) s) = WithMastery l
             /\ map fst l = filteredTopics subject allTopics) \/
  fst (run (getTopics role userId subject allTopics) s) =
    Plain (filteredTopics subject allTopics).
Proof.
  assert (forall H : role <> Some "student" \/ session_user userId = None,
            fst (run (getTopics role userId subject allTopics) s) =
            Plain (filteredTopics subject allTopics)) as Hplain.
  { intros H.
    rewrite (proj1 (getTopics_plain s role userId subject allTopics H)).
    reflexivity. }
  destruct role as [r |]; [| right; apply Hplain; left; discriminate].
  destruct (String.eqb_spec r "student") as [-> | Hne];
    [| right; apply Hplain; left; congruence].
  destruct (session_user userId) as [uid |] eqn:Hu;
    [| right; apply Hplain; right; reflexivity].
  left. destruct (getTopics_student s uid userId subject allTopics Hu)
    as [-> _].
  eexists. split; [reflexivity |].
  rewrite map_map. cbn [fst]. apply map_id.
Qed.

(** X7. Which topics [getTopics] lists depends on the subject number alone:
    without one, or with 0 (which is falsy), all topics in storage order;
    with any other number exactly the topics of that subject, so that a
    number that is no subject identifier, such as 1.5, lists none. *)
Theorem getTopics_subject_filter (s : Store) (role : option string)
    (userId : option Z) (subject : option Q) (allTopics : list Topic) :
  let topics := listed (fst (run (getTopics role userId subject allTopics) s)) in
  (subject = None \/ (exists n, subject = Some n /\ (n == 0)%Q) ->
   topics = allTopics) /\
  (forall n, subject = Some n -> ~ (n == 0)%Q ->
     topics = List.filter (fun t => Qeq_bool (inject_Z (subjectId t)) n) allTopics
     /\ (forall t, In t topics <->
                   In t allTopics /\ (inject_Z (subjectId t) == n)%Q)
     /\ ((forall z, ~ (n == inject_Z z)%Q) -> topics = [])).
Proof.
  cbv zeta.
  assert (listed (fst (run (getTopics role userId subject allTopics) s)) =
          filteredTopics subject allTopics) as ->.
  { destruct (getTopics_attaches_mastery_aux s role userId subject allTopics)
      as [[l [-> Hl]] | ->]; [exact Hl | reflexivity]. }
  split.
  - intros [-> | (n & -> & Hn)]; [reflexivity |].
    unfold filteredTopics. apply Qeq_bool_iff in Hn. rewrite Hn. reflexivity.
  - intros n -> Hn. unfold filteredTopics.
    destruct (Qeq_bool n 0) eqn:E; [apply Qeq_bool_iff in E; contradiction |].
    split; [reflexivity |]. split.
    + intros t. rewrite filter_In, Qeq_bool_iff. reflexivity.
    + intros Hnoint.
      induction allTopics as [| t l IH]; [reflexivity |].
      cbn [List.filter].
      destruct (Qeq_bool (inject_Z (subjectId t)) n) eqn:Et; [| exact IH].
      apply Qeq_bool_iff in Et. exfalso.
      apply (Hnoint (subjectId t)). symmetry. exact Et.
Qed.

Lemma getTopics_subject_filter_witness :
  map topic_id
    (listed (fst (run (getTopics (Some "student") (Some 2) (Some 1%Q) seed_topics)
                    seed_store))) = [1; 2; 3] /\
  listed (fst (run (getTopics None None (Some 0%Q) seed_topics) seed_store))
    = seed_topics.
Proof.
  split.
  - rewrite (proj1 (proj2 (getTopics_subject_filter seed_store (Some "student")
                             (Some 2) (Some 1%Q) seed_topics) 1%Q eq_refl
                      ltac:(discriminate))).
    reflexivity.
  - apply (proj1 (getTopics_subject_filter seed_store None None (Some 0%Q)
                    seed_topics)).
    right. exists 0%Q. split; reflexivity.
Defined.

Lemma getTopics_attaches_mastery_witness :
  fst (run (getTopics (Some "student") (Some 2) (Some 1%Q) seed_topics)
         (store_updateMastery seed_store 2 3 1)) =
  WithMastery
    [ (mkTopic 1 1 "Electricity" "electricity" "KS2" "Circuits and conductors", 0%Q);
      (mkTopic 2 1 "Plants" "plants" "KS2" "Photosynthesis and growth", 0%Q);
      (mkTopic 3 1 "Space" "space" "KS2" "Planets and the solar system", 1%Q) ].
Proof.
  rewrite (proj1 (proj1 (proj2 (proj2
             (getTopics_attaches_mastery (store_updateMastery seed_store 2 3 1)
                (Some "student") (Some 2) (Some 1%Q) seed_topics)))
             2 eq_refl eq_refl)).
  vm_compute. reflexivity.
Defined.

(** X8. The topic list reflects the last answer: after a graded
    [submitAnswer] of a student, that student's topic list is the one from
    before with the mastery of the answered question's topic replaced by 1
    if the answer was correct and by 0 if not, every other topic keeping
    what it showed. *)
Theorem getTopics_after_answer (s : Store) (uid questionId : Z)
    (answer : string) (timeTaken : Z) (question : Question)
    (subject : option Q) (allTopics : list Topic) :
  uid <> 0 ->
  store_getQuestion s questionId = Some question ->
  let s' := snd (run (submitAnswer (Some uid) questionId answer timeTaken) s) in
  let h := getTopics (Some "student") (Some uid) subject allTopics in
  exists l,
    fst (run h s) = WithMastery l /\
    fst (run h s') =
      WithMastery
        (map (fun p : Topic * Q =>
                (fst p,
                 if topic_id (fst p) =? topicId question
                 then (if String.eqb (correctAnswer question) answer
                       then 1%Q else 0%Q)
                 else snd p)) l).
Proof.
  intros Huid Hq s' h.
  destruct (submitAnswer_found s (Some uid) uid questionId answer timeTaken
              question (session_user_Some uid Huid) Hq) as [Hrun _].
  assert (s' = graded_store s uid questionId question answer timeTaken) as ->
    by (unfold s'; rewrite Hrun; reflexivity).
  unfold h.
  rewrite (proj1 (getTopics_student s uid (Some uid) subject allTopics
                    (session_user_Some uid Huid))).
  rewrite (proj1 (getTopics_student _ uid (Some uid) subject allTopics
                    (session_user_Some uid Huid))).
  eexists. split; [reflexivity |]. cbn [fst]. f_equal.
  rewrite map_map. apply map_ext. intros t. cbn [fst snd]. f_equal.
  destruct (Z.eqb_spec (topic_id t) (topicId question)) as [-> | Hne].
  - rewrite graded_store_mastery.
    destruct (String.eqb (correctAnswer question) answer); reflexivity.
  - unfold graded_store, store_getMastery.
    cbn [mastery store_updateMastery store_logLearningEvent].
    rewrite lookup_insert_ne by congruence. reflexivity.
Qed.

Lemma getTopics_after_answer_witness :
  fst (run (getTopics (Some "student") (Some 2) (Some 1%Q) seed_topics)
         (snd (run (submitAnswer (Some 2) 3 "Mercury" 5) seed_store))) =
  WithMastery
    [ (mkTopic 1 1 "Electricity" "electricity" "KS2" "Circuits and conductors", 0%Q);
      (mkTopic 2 1 "Plants" "plants" "KS2" "Photosynthesis and growth", 0%Q);
      (mkTopic 3 1 "Space" "space" "KS2" "Planets and the solar system", 1%Q) ].
Proof.
  destruct (getTopics_after_answer seed_store 2 3 "Mercury" 5
              (mkQuestion 3 3 "Which planet is closest to the Sun?"
                 "Mercury" ["Venus"; "Earth"; "Mars"] 2
                 (Some "Mercury is the first planet."))
              (Some 1%Q) seed_topics) as (l & Hbefore & Hafter);
    [discriminate | reflexivity |].
  rewrite Hafter.
  assert (l = [ (mkTopic 1 1 "Electricity" "electricity" "KS2"
                   "Circuits and conductors", 0%Q);
                (mkTopic 2 1 "Plants" "plants" "KS2"
                   "Photosynthesis and growth", 0%Q);
                (mkTopic 3 1 "Space" "space" "KS2"
                   "Planets and the solar system", 0%Q) ]) as ->.
  { vm_compute in Hbefore. congruence. }
  reflexivity.
Defined.

End TopicsSpec.

(** ** Properties of login, logout and me *)

Module AuthSpec.
Import Routes Auth.

Lemma strict_eq_iff (a b : field) : strict_eq a b = true <-> a = b.
Proof.
  destruct a as [| | x], b as [| | y]; cbn; try (split; congruence).
  rewrite String.eqb_eq. split; congruence.
Qed.

Lemma every_matches_iff (stored provided : list string) :
  every_matches stored provided = true <->
  forall i val, stored !! i = Some val -> provided !! i = Some val.
Proof.
  unfold every_matches. rewrite forallb_forall. split.
  - intros H i val Hi.
    specialize (H (i, val)). cbn [fst snd] in H.
    destruct (provided !! i) as [x |] eqn:Hx.
    + f_equal. symmetry. apply String.eqb_eq. apply H.
      apply list_elem_of_In, elem_of_lookup_imap. exists i, val. auto.
    + discriminate H.
      apply list_elem_of_In, elem_of_lookup_imap. exists i, val. auto.
  - intros H [i val] Hin.
    apply list_elem_of_In, elem_of_lookup_imap in Hin.
    destruct Hin as (j & y & Heq & Hj). injection Heq as -> ->.
    cbn [fst snd]. rewrite (H j y Hj). apply String.eqb_refl.
Qed.

Lemma isMatch_true_iff (stored : option (list string))
    (provided : list string) :
  isMatch stored provided = true <-> stored = Some provided.
Proof.
  unfold isMatch. destruct stored as [st |]; [| split; discriminate].
  rewrite andb_true_iff, Z.eqb_eq, every_matches_iff. split.
  - intros [Hlen Hall]. f_equal. apply list_eq. intros i.
    destruct (st !! i) as [val |] eqn:Hi.
    + symmetry. apply Hall. exact Hi.
    + symmetry. apply lookup_ge_None. apply lookup_ge_None in Hi. lia.
  - intros [= ->]. split; [reflexivity | auto].
Qed.

(** X9. The picture-password check accepts exactly the stored sequence:
    same pictures in the same order, nothing more and nothing less; a user
    without a stored picture password is never accepted, sequences of
    different lengths never match, and an empty stored sequence is accepted
    with the empty sequence. *)
Theorem isMatch_iff (stored : option (list string)) (provided : list string) :
  (isMatch stored provided = true <-> stored = Some provided) /\
  isMatch None provided = false /\
  (forall st, length st <> length provided ->
     isMatch (Some st) provided = false) /\
  isMatch (Some []) [] = true.
Proof.
  split; [apply isMatch_true_iff |]. split; [reflexivity |].
  split; [| reflexivity].
  intros st Hlen. destruct (isMatch (Some st) provided) eqn:E; [| reflexivity].
  apply isMatch_true_iff in E. congruence.
Qed.

Lemma login_not_admin (getUserByUsername : string -> option User)
    (createUser : InsertUser -> User) (input : LoginInput) (session : Session) :
  ~ is_admin_login input ->
  login getUserByUsername createUser (Some input) session =
  match getUserByUsername (in_username input) with
  | None => (Unauthorized "Invalid credentials", session, [])
  | Some user =>
    if negb (String.eqb (role user) (in_role input))
    then (Unauthorized "Invalid role for this user", session, [])
    else
      let accept :=
        (UserJson user, mkSession (Some (user_id user)) (Some (role user)), []) in
      match String.eqb (role user) "student", in_picturePassword input with
      | true, Some provided =>
          if isMatch (picturePassword user) provided
          then accept
          else (Unauthorized "Wrong picture password", session, [])
      | _, _ =>
          if negb (strict_eq (password user) (in_password input))
          then (Unauthorized "Invalid password", session, [])
          else accept
      end
  end.
Proof.
  intros Hnot. unfold login.
  destruct (String.eqb (in_username input) "admin"
            && strict_eq (in_password input) (Str "admin")) eqn:E;
    [| reflexivity].
  exfalso. apply Hnot. apply andb_true_iff in E. destruct E as [E1 E2].
  split; [apply String.eqb_eq, E1 | apply strict_eq_iff, E2].
Qed.

Lemma accepts_iff (user : User) (input : LoginInput) :
  accepts user input = true <-> credentials_ok user input.
Proof.
  unfold accepts, credentials_ok.
  destruct (String.eqb (role user) "student");
    destruct (in_picturePassword input) as [provided |];
    first [apply isMatch_true_iff | apply strict_eq_iff].
Qed.

Lemma login_outcome (getUserByUsername : string -> option User)
    (createUser : InsertUser -> User) (input : LoginInput) (session : Session) :
  ~ is_admin_login input ->
  let result := login getUserByUsername createUser (Some input) session in
  (exists user,
     getUserByUsername (in_username input) = Some user /\
     role user = in_role input /\ accepts user input = true /\
     result = (UserJson user,
               mkSession (Some (user_id user)) (Some (role user)), [])) \/
  ((forall user,
      getUserByUsername (in_username input) = Some user ->
      role user = in_role input -> accepts user input = false) /\
   exists message, result = (Unauthorized message, session, [])).
Proof.
  intros Hnot result. unfold result.
  rewrite (login_not_admin _ _ _ _ Hnot).
  destruct (getUserByUsername (in_username input)) as [user |];
    [| right; split; [intros u H; discriminate | eexists; reflexivity]].
  destruct (String.eqb_spec (role user) (in_role input)) as [Hrole | Hrole];
    cbn [negb].
  2:{ right. split; [| eexists; reflexivity].
      intros u [= <-] Hr. contradiction. }
  destruct (accepts user input) eqn:Hacc.
  - left. exists user. repeat split; try assumption.
    unfold accepts in Hacc.
    destruct (String.eqb (role user) "student");
      destruct (in_picturePassword input) as [provided |];
      rewrite Hacc; reflexivity.
  - right. split; [intros u [= <-] _; exact Hacc |].
    unfold accepts in Hacc.
    destruct (String.eqb (role user) "student");
      destruct (in_picturePassword input) as [provided |];
      rewrite Hacc; eexists; reflexivity.
Qed.

(** X10. With credentials other than the admin pair, login answers with a
    user exactly when a user of that name exists, has the requested role,
    and passes the one check made: for a student who submitted a picture
    password the stored picture password must equal it (the text password is
    then not looked at), otherwise the stored password must be identical to
    the submitted one.  The answer is then the stored user, the session
    holds that user's id and role, and no user is created. *)
Theorem login_accepts (getUserByUsername : string -> option User)
    (createUser : InsertUser -> User) (input : LoginInput) (session : Session) :
  ~ is_admin_login input ->
  let result := login getUserByUsername createUser (Some input) session in
  ((exists u, fst (fst result) = UserJson u) <->
   exists user, getUserByUsername (in_username input) = Some user /\
                role user = in_role input /\ credentials_ok user input) /\
  (forall u, fst (fst result) = UserJson u ->
     getUserByUsername (in_username input) = Some u /\
     snd (fst result) = mkSession (Some (user_id u)) (Some (role u)) /\
     snd result = []).
Proof.
  intros Hnot result.
  pose proof (login_outcome getUserByUsername createUser input session Hnot)
    as Hout.
  cbv zeta in Hout. subst result.
  destruct Hout
    as [(user & Hget & Hrole & Hacc & Hres) | (Hnone & message & Hres)];
    rewrite Hres; cbn [fst snd].
  - split.
    + split; [| intros _; eexists; reflexivity].
      intros _. exists user. split; [exact Hget |]. split; [exact Hrole |].
      apply accepts_iff. exact Hacc.
    + intros u [= <-]. auto.
  - split; [| intros u H; discriminate].
    split; [intros [u H]; discriminate |].
    intros (user & Hget & Hrole & Hok). apply accepts_iff in Hok.
    rewrite (Hnone user Hget Hrole) in Hok. discriminate.
Qed.

Lemma login_accepts_witness :
  fst (fst (login seed_users create_third
              (Some (mkLoginInput "student1" (Str "admin") "student" None))
              no_session)) =
  UserJson (mkUser 2 "student1" (Str "admin") "student" "Alex" None (Some 5)).
Proof.
  pose proof (login_accepts seed_users create_third
                (mkLoginInput "student1" (Str "admin") "student" None)
                no_session ltac:(intros [H _]; discriminate H)) as H.
  cbv zeta in H. destruct H as [Hiff Hsucc].
  destruct (proj2 Hiff) as [u Hu].
  - eexists. split; [reflexivity |]. split; reflexivity.
  - destruct (Hsucc u Hu) as (Hget & _). injection Hget as <-. exact Hu.
Defined.

Lemma login_admin (getUserByUsername : string -> option User)
    (createUser : InsertUser -> User) (input : LoginInput) (session : Session) :
  is_admin_login input ->
  exists user created,
    login getUserByUsername createUser (Some input) session =
      (UserJson (mkUser (user_id user) (username user) (password user)
                   (in_role input) (firstName user) (picturePassword user)
                   (yearGroup user)),
       mkSession (Some (user_id user)) (Some (in_role input)), created) /\
    ((getUserByUsername "admin" = Some user /\ created = []) \/
     (getUserByUsername "admin" = None /\
      created =
        [ {| new_username := "admin";
             new_password := Str "admin";
             new_role := in_role input;
             new_firstName := "Admin";
             new_picturePassword := None;
             new_yearGroup :=
               if String.eqb (in_role input) "student" then Some 5 else None |} ]
      /\ user = createUser
           {| new_username := "admin";
              new_password := Str "admin";
              new_role := in_role input;
              new_firstName := "Admin";
              new_picturePassword := None;
              new_yearGroup :=
                if String.eqb (in_role input) "student" then Some 5 else None |})).
Proof.
  intros [Hname Hpw]. unfold login. rewrite Hname, Hpw.
  rewrite String.eqb_refl. cbn [strict_eq]. rewrite String.eqb_refl.
  cbn [andb].
  destruct (getUserByUsername "admin") as [stored |]; eexists; eexists;
    (split; [reflexivity |]); [left | right]; repeat split.
Qed.



(** X12. The pair admin/admin logs in under any requested role, whatever the
    stored admin user's own role and without any password or picture check
    against storage: the session and the answer carry the requested role and
    the admin user's id, and the admin user is created, once, exactly when
    no user of that name exists. *)
Theorem login_admin_any_role (getUserByUsername : string -> option User)
    (createUser : InsertUser -> User) (input : LoginInput) (session : Session) :
  is_admin_login input ->
  let result := login getUserByUsername createUser (Some input) session in
  exists user,
    fst (fst result) = UserJson user /\
    role user = in_role input /\
    snd (fst result) = mkSession (Some (user_id user)) (Some (in_role input)) /\
    (forall stored, getUserByUsername "admin" = Some stored ->
       user_id user = user_id stored /\ snd result = []) /\
    (getUserByUsername "admin" = None ->
       exists fresh,
         snd result = [fresh] /\
         user_id user = user_id (createUser fresh) /\
         new_username fresh = "admin" /\ new_password fresh = Str "admin" /\
         new_role fresh = in_role input /\
         new_yearGroup fresh =
           (if String.eqb (in_role input) "student" then Some 5 else None)).
Proof.
  intros Hadmin result.
  destruct (login_admin getUserByUsername createUser input session Hadmin)
    as (user & created & Hres & Hcases).
  subst result. rewrite Hres. cbn [fst snd].
  eexists. split; [reflexivity |]. cbn [role user_id].
  split; [reflexivity |]. split; [reflexivity |].
  destruct Hcases as [[Hget ->] | (Hget & -> & ->)]; rewrite Hget; split.
  - intros stored [= <-]. split; reflexivity.
  - discriminate.
  - discriminate.
  - intros _. eexists. split; [reflexivity |].
    cbn [new_username new_password new_role new_yearGroup].
    repeat split.
Qed.

Lemma login_admin_any_role_witness :
  snd (fst (login seed_users create_third
              (Some (mkLoginInput "admin" (Str "admin") "student"
                       (Some ["cat"])))
              no_session)) =
  mkSession (Some 1) (Some "student").
Proof.
  destruct (login_admin_any_role seed_users create_third
              (mkLoginInput "admin" (Str "admin") "student" (Some ["cat"]))
              no_session (conj eq_refl eq_refl))
    as (user & _ & _ & Hsession & Hstored & _).
  rewrite Hsession.
  destruct (Hstored _ eq_refl) as [-> _]. reflexivity.
Defined.

Lemma classic_admin (input : LoginInput) :
  is_admin_login input \/ ~ is_admin_login input.
Proof.
  unfold is_admin_login.
  destruct (String.eqb_spec (in_username input) "admin") as [-> | Hne];
    [| right; intros [H _]; contradiction].
  destruct (strict_eq (in_password input) (Str "admin")) eqn:E.
  - left. split; [reflexivity | apply strict_eq_iff, E].
  - right. intros [_ H]. apply strict_eq_iff in H. congruence.
Qed.

(** X13. [me] answers with a user exactly when the session holds a non-zero
    user id that [getUser] finds; after [logout] it answers 401, as do
    [getNextQuestion] and [submitAnswer]; and with the session a successful
    login leaves, the two learning handlers do not answer 401 unless the
    user's id is 0. *)
Theorem session_lifecycle (getUser : Z -> option User) (session : Session) :
  (forall u, me getUser session = UserJson u <->
     exists uid, session_userId session = Some uid /\ uid <> 0 /\
                 getUser uid = Some u) /\
  me getUser (snd (logout session)) = Unauthorized_empty /\
  (forall s topic random questionId answer timeTaken,
     fst (run (getNextQuestion (session_userId (snd (logout session)))
                 topic random) s) = Status401 /\
     run (submitAnswer (session_userId (snd (logout session)))
            questionId answer timeTaken) s = (Status401, s)) /\
  (forall getUserByUsername createUser input u s topic random questionId
          answer timeTaken,
     let result := login getUserByUsername createUser input session in
     fst (fst result) = UserJson u ->
     user_id u <> 0 ->
     fst (run (getNextQuestion (session_userId (snd (fst result)))
                 topic random) s) <> Status401 /\
     fst (run (submitAnswer (session_userId (snd (fst result)))
                 questionId answer timeTaken) s) <> Status401).
Proof.
  split; [| split; [reflexivity | split]].
  - intros u. unfold me, session_user.
    destruct (session_userId session) as [uid |].
    + destruct (Z.eqb_spec uid 0) as [-> | Hne].
      * split; [discriminate | intros (uid & [= <-] & H & _); contradiction].
      * destruct (getUser uid) as [user |] eqn:Hget.
        -- split.
           ++ intros [= <-]. exists uid. auto.
           ++ intros (uid' & [= <-] & _ & Hu). congruence.
        -- split; [discriminate |].
           intros (uid' & [= <-] & _ & Hu). congruence.
    + split; [discriminate | intros (uid & H & _); discriminate].
  - intros s topic random questionId answer timeTaken. split; reflexivity.
  - intros getUserByUsername createUser input u s topic random questionId
      answer timeTaken result Hres Hid.
    assert (session_userId (snd (fst result)) = Some (user_id u)) as ->.
    { unfold result in *. destruct input as [input |]; [| discriminate].
      destruct (classic_admin input) as [Hadmin | Hnot].
      - destruct (login_admin getUserByUsername createUser input
                    session Hadmin) as (user & created & Hlogin & _).
        rewrite Hlogin in *. cbn [fst snd] in *.
        injection Hres as <-. reflexivity.
      - pose proof (login_outcome getUserByUsername createUser input session
                      Hnot) as Hout.
        cbv zeta in Hout.
        destruct Hout as [(user & _ & _ & _ & Hlogin) | (_ & message & Hlogin)];
          rewrite Hlogin in *; cbn [fst snd] in *; [| discriminate].
        injection Hres as <-. reflexivity. }
    split.
    + rewrite RoutesSpec.getNextQuestion_run. cbn [fst].
      apply Z.eqb_neq in Hid. rewrite Hid. cbv zeta.
      destruct (Z.of_nat (length (store_getQuestionsByTopic s topic)) =? 0);
        discriminate.
    + unfold submitAnswer. rewrite (RoutesSpec.session_user_Some _ Hid).
      cbn [bind getQuestion run].
      destruct (store_getQuestion s questionId); discriminate.
Qed.

Lemma session_lifecycle_witness :
  me seed_user_by_id (mkSession (Some 2) (Some "student")) =
  UserJson (mkUser 2 "student1" (Str "admin") "student" "Alex" None (Some 5)).
Proof.
  apply (proj1 (session_lifecycle seed_user_by_id
                  (mkSession (Some 2) (Some "student")))).
  exists 2. split; [reflexivity |]. split; [discriminate | reflexivity].
Defined.

End AuthSpec.

(** ** Further properties of the GameEngine component *)

Module GameEngineExtra.
Import Routes GameEngine Render Invariants GameEngineSpec.

(** X14. The text of the continue button announces what the click does: it
    reads "Play Game!" exactly when [handleContinue] moves to the game
    phase, and "Next Question" exactly when it moves to loading and
    refetches. *)
Theorem continueLabel_agrees (s : State) :
  (continueLabel (questionsAnswered s) = "Play Game! 🎮" <->
   phase (fst (handleContinue s)) = phase_game) /\
  (continueLabel (questionsAnswered s) = "Next Question →" <->
   phase (fst (handleContinue s)) = phase_loading
   /\ snd (handleContinue s) = [RefetchThenQuestion]).
Proof.
  unfold continueLabel, handleContinue.
  destruct ((Z.rem (questionsAnswered s) 3 =? 0) && (questionsAnswered s >? 0));
    cbn [fst snd setResult setGameProgress setPhase phase].
  - split; [split; reflexivity |].
    split; [discriminate | intros [H _]; discriminate].
  - split; [split; discriminate |].
    split; [intros _; split; reflexivity | reflexivity].
Qed.

(** X15. The time sent with an answer is the time since the question was
    shown, in milliseconds, rounded to the nearest whole second with halves
    going up; it is not negative unless the clock went backwards. *)
Theorem timeTaken_rounds (q : Question) (now : Z) (answer : string) (s : State) :
  result s = None -> phase s = phase_question ->
  exists t,
    snd (handleAnswer q now answer s) = [SubmitAnswer (id q) answer t (streak s)] /\
    1000 * t - 500 <= now - startTime s < 1000 * t + 500 /\
    (startTime s <= now -> 0 <= t).
Proof.
  intros Hr Hp. rewrite (handleAnswer_submits q now answer s Hr Hp).
  exists (round_seconds (now - startTime s)). split; [reflexivity |].
  unfold round_seconds.
  pose proof (Z.div_mod (now - startTime s + 500) 1000 ltac:(lia)) as Hdm.
  pose proof (Z.mod_pos_bound (now - startTime s + 500) 1000 ltac:(lia)) as Hm.
  split; [lia |].
  intros Hle. apply Z.div_pos; lia.
Qed.

Lemma timeTaken_rounds_witness :
  exists t,
    snd (handleAnswer switch_question 7499 "Switch"
           (mkState phase_question None None 5000 0 0 0 0))
      = [SubmitAnswer 2 "Switch" t 0] /\ t = 2.
Proof.
  destruct (timeTaken_rounds switch_question 7499 "Switch"
              (mkState phase_question None None 5000 0 0 0 0)
              eq_refl eq_refl) as (t & Hcmd & Hbounds & _).
  exists t. split; [exact Hcmd |].
  cbn [startTime] in Hbounds. lia.
Defined.

(** X16. How the option buttons are marked.  Without a result every button
    is neutral and carries no icon.  With a result the button of the correct
    answer is green with a check mark, whichever button was clicked; any
    other button is red exactly when it is the clicked one and the answer
    was judged wrong, and dimmed otherwise; the cross is on the clicked
    button exactly when the answer was judged wrong.  With the correct
    answer not among the distractors, exactly one of the buttons shown is
    green. *)
Theorem option_marking (result : option Result) (selected : option string)
    (q : Question) (random : nat -> Q) (o : string) :
  ~ In (correctAnswer q) (distractors q) ->
  (result = None ->
     statusClass result selected (correctAnswer q) o = class_neutral /\
     showsCheck result (correctAnswer q) o = false /\
     showsCross result selected o = false) /\
  (forall r, result = Some r ->
     (o = correctAnswer q ->
        statusClass result selected (correctAnswer q) o = class_correct /\
        showsCheck result (correctAnswer q) o = true) /\
     (o <> correctAnswer q ->
        showsCheck result (correctAnswer q) o = false /\
        (statusClass result selected (correctAnswer q) o = class_wrong <->
         selected = Some o /\ r_correct r = false) /\
        (statusClass result selected (correctAnswer q) o = class_dimmed <->
         ~ (selected = Some o /\ r_correct r = false))) /\
     (showsCross result selected o = true <->
      selected = Some o /\ r_correct r = false) /\
     length (List.filter
               (fun o' => String.eqb
                            (statusClass result selected (correctAnswer q) o')
                            class_correct)
               (allOptions q random)) = 1%nat).
Proof.
  intros Hnot.
  split; [intros ->; repeat split |].
  intros r ->.
  assert (selected_is selected o && negb (r_correct r) = true <->
          selected = Some o /\ r_correct r = false) as Hsel.
  { unfold selected_is. rewrite andb_true_iff, negb_true_iff.
    destruct selected as [a |]; [| split; [intros [H _] | intros [H _]]; discriminate].
    rewrite String.eqb_eq. split; intros [H1 H2]; split; congruence. }
  split; [| split; [| split]].
  - intros ->. unfold statusClass, showsCheck. rewrite String.eqb_refl.
    split; reflexivity.
  - intros Hne. unfold statusClass, showsCheck.
    apply String.eqb_neq in Hne. rewrite Hne.
    split; [reflexivity |].
    destruct (selected_is selected o && negb (r_correct r)) eqn:E.
    + split; [split; [intros _; apply Hsel; reflexivity | reflexivity] |].
      split; [discriminate | intros H; exfalso; apply H, Hsel; reflexivity].
    + split; [split; [discriminate | intros H; apply Hsel in H; discriminate] |].
      split; [intros _ H; apply Hsel in H; discriminate | reflexivity].
  - exact Hsel.
  - assert (forall l : list string,
              length (List.filter
                        (fun o' => String.eqb
                                     (statusClass (Some r) selected
                                        (correctAnswer q) o') class_correct) l)
              = count_occ string_dec l (correctAnswer q)) as Hcount.
    { induction l as [| x l IH]; [reflexivity |].
      cbn [List.filter count_occ]. unfold statusClass at 1.
      destruct (String.eqb_spec x (correctAnswer q)) as [-> | Hx].
      - destruct (string_dec (correctAnswer q) (correctAnswer q));
          [| contradiction].
        cbn [length]. rewrite <- IH. reflexivity.
      - destruct (string_dec x (correctAnswer q)); [contradiction |].
        destruct (selected_is selected x && negb (r_correct r)); exact IH. }
    rewrite Hcount.
    pose proof (insertion_sort_perm random
                  (correctAnswer q :: distractors q) 0%nat []) as Hperm.
    cbn [app] in Hperm. fold (allOptions q random) in Hperm.
    rewrite <- (proj1 (Permutation_count_occ string_dec _ _) Hperm).
    rewrite count_occ_cons_eq by reflexivity.
    f_equal. apply count_occ_not_In. exact Hnot.
Qed.

Lemma option_marking_witness :
  statusClass (Some (mkResult false "Not quite..." 0)) (Some "Wire")
    (correctAnswer switch_question) "Switch" = class_correct /\
  statusClass (Some (mkResult false "Not quite..." 0)) (Some "Wire")
    (correctAnswer switch_question) "Wire" = class_wrong.
Proof.
  destruct (option_marking (Some (mkResult false "Not quite..." 0)) (Some "Wire")
              switch_question (fun _ => 1 # 4) "Switch") as [_ H1].
  { cbn. intros [H | [H | [H | H]]]; try discriminate H. exact H. }
  destruct (option_marking (Some (mkResult false "Not quite..." 0)) (Some "Wire")
              switch_question (fun _ => 1 # 4) "Wire") as [_ H2].
  { cbn. intros [H | [H | [H | H]]]; try discriminate H. exact H. }
  split.
  - apply (H1 _ eq_refl). reflexivity.
  - apply (H2 _ eq_refl); [discriminate |]. split; reflexivity.
Defined.

(** *** Invariants of the mounted component *)

Lemma steps_invariant (P : Component -> Prop) :
  (forall now e c, P c -> P (step now e c)) ->
  forall es c, P c -> P (steps c es).
Proof.
  intros Hstep es. unfold steps.
  induction es as [| [now e] es IH]; intros c Hc; [exact Hc |].
  cbn [fold_left fst snd]. apply IH, Hstep, Hc.
Qed.

Ltac split_component c :=
  destruct c as [[ph sel res st sc stk qa gp] q fetching th infl subm].

Ltac case_step :=
  repeat (cbn in *; try congruence;
          match goal with
          | |- context [if ?b then _ else _] => destruct b eqn:?
          | |- context [match ?x with _ => _ end] => destruct x eqn:?
          end);
  cbn in *.

Lemma result_matches_phase_step (now : Z) (e : Event) (c : Component) :
  result_matches_phase c -> result_matches_phase (step now e c).
Proof.
  unfold result_matches_phase. split_component c.
  cbn [view question result phase]. intros [[q0 ->] Hiff].
  assert (ph = phase_result -> is_Some res) as Hres by apply Hiff.
  assert (ph <> phase_result -> res = None) as Hnone.
  { intros Hph. destruct res; [| reflexivity].
    exfalso. apply Hph, Hiff. eexists. reflexivity. }
  destruct e as [answer | | data | next |];
    unfold step, dispatch, options_clickable, continue_clickable, spinner,
      handleAnswer, handleContinue, onSuccess, tick, questionEffect,
      apply_handler;
    cbn [view question result phase isFetching thens inflight submitted
         is_Some_b negb andb orb];
    destruct ph; try (rewrite (Hnone ltac:(discriminate)) in * );
    try (destruct (Hres eq_refl) as [r0 ->]);
    clear Hiff Hres Hnone;
    case_step;
    (split; [eexists; reflexivity |]);
    (split; [intros [? H]; first [reflexivity | discriminate H]
            | intros H; first [discriminate H | eexists; reflexivity]]).
Qed.

(** X17. At every moment of a session a result is held exactly when the
    phase is [result], and a question is loaded: the option buttons are
    never enabled next to a shown result, and the continue button exists
    whenever the phase is [result] and no fetch is running. *)
Theorem result_only_in_result_phase (first : Question) (t0 : Z)
    (es : list (Z * Event)) :
  let c := steps (mounted first t0) es in
  is_Some (question c) /\
  (is_Some (result (view c)) <-> phase (view c) = phase_result) /\
  (phase (view c) = phase_result -> options_clickable c = false) /\
  (phase (view c) = phase_result -> isFetching c = false ->
   continue_clickable c = true).
Proof.
  cbv zeta.
  assert (result_matches_phase (steps (mounted first t0) es)) as [Hq Hiff].
  { apply steps_invariant; [intros; apply result_matches_phase_step; assumption |].
    split; [eexists; reflexivity |].
    cbn. split; [intros [? H]; discriminate H | discriminate]. }
  split; [exact Hq |]. split; [exact Hiff |].
  split.
  - intros Hph. apply Hiff in Hph. destruct Hph as [r Hr].
    unfold options_clickable. rewrite Hr. cbn. apply andb_false_r.
  - intros Hph Hf. pose proof (proj2 Hiff Hph) as [r Hr].
    destruct Hq as [q0 Hq0].
    unfold continue_clickable, spinner. rewrite Hph, Hr, Hf, Hq0. reflexivity.
Qed.

Lemma progress_in_range_step (now : Z) (e : Event) (c : Component) :
  progress_in_range c -> progress_in_range (step now e c).
Proof.
  unfold progress_in_range. split_component c.
  cbn [view gameProgress]. intros [Hrange Heven].
  pose proof (proj1 (Z.even_spec gp) Heven) as [k Hk].
  destruct e as [answer | | data | next |];
    unfold step, dispatch, options_clickable, continue_clickable, spinner,
      handleAnswer, handleContinue, onSuccess, tick, questionEffect,
      apply_handler;
    cbn [view question result phase isFetching thens inflight submitted
         gameProgress questionsAnswered];
    try destruct (Z.geb_spec gp 100);
    try destruct ((Z.rem qa 3 =? 0) && (qa >? 0));
    case_step;
    (split; [lia |]);
    first [assumption | reflexivity | rewrite Z.even_add, Heven; reflexivity].
Qed.

(** X18. The counter of the interstitial is at every moment of a session an
    even number between 0 and 100, so the percentage shown never exceeds
    100. *)
Theorem gameProgress_bounded (first : Question) (t0 : Z) (es : list (Z * Event)) :
  let c := steps (mounted first t0) es in
  0 <= gameProgress (view c) <= 100 /\
  exists k, gameProgress (view c) = 2 * k.
Proof.
  cbv zeta.
  assert (progress_in_range (steps (mounted first t0) es)) as [Hrange Heven].
  { apply steps_invariant; [intros; apply progress_in_range_step; assumption |].
    split; [cbn; lia | reflexivity]. }
  split; [exact Hrange |]. apply Z.even_spec. exact Heven.
Qed.

Lemma loading_has_fetch_step (now : Z) (e : Event) (c : Component) :
  loading_has_fetch c -> loading_has_fetch (step now e c).
Proof.
  unfold loading_has_fetch. split_component c.
  cbn [view phase isFetching thens]. intros Hl.
  destruct ph;
    try (destruct (Hl eq_refl) as [-> Hth]; destruct th as [| th']; [lia |]);
    clear Hl;
    destruct e as [answer | | data | next |];
    unfold step, dispatch, options_clickable, continue_clickable, spinner,
      handleAnswer, handleContinue, onSuccess, tick, questionEffect,
      apply_handler;
    cbn [view question result phase isFetching thens inflight submitted
         gameProgress questionsAnswered];
    case_step;
    intros H; try discriminate H; (split; [reflexivity | lia]).
Qed.

(** X19. The loading phase always has a fetch under way: while it lasts the
    spinner is shown and neither a click nor the interval changes anything,
    and the settling of the fetch leads to the question phase with the new
    question, no result, no selected answer and the clock restarted. *)
Theorem loading_resolves (first : Question) (t0 : Z) (es : list (Z * Event)) :
  let c := steps (mounted first t0) es in
  phase (view c) = phase_loading ->
  spinner c = true /\
  (forall now e, is_user_input e = true \/ e = IntervalTick -> step now e c = c) /\
  (forall now next,
     let c' := step now (FetchSettled next) c in
     phase (view c') = phase_question /\
     question c' = Some next /\
     result (view c') = None /\
     selectedAnswer (view c') = None /\
     startTime (view c') = now /\
     isFetching c' = false).
Proof.
  cbv zeta. intros Hph.
  assert (loading_has_fetch (steps (mounted first t0) es)) as Hl.
  { apply steps_invariant; [intros; apply loading_has_fetch_step; assumption |].
    intros H. discriminate H. }
  destruct (Hl Hph) as [Hf Hth].
  set (c := steps (mounted first t0) es) in *. clearbody c.
  split_component c. cbn [view phase isFetching thens] in *. subst ph fetching.
  destruct th as [| th']; [lia |].
  split; [reflexivity |]. split.
  - intros now e [Hu | ->];
      [destruct e; try discriminate Hu; try destruct q |]; reflexivity.
  - intros now next. repeat split.
Qed.

Lemma loading_resolves_witness :
  phase (view (step 9000 (FetchSettled switch_question)
                 (steps (mounted switch_question 0)
                    (timed (session "Switch"
                              (mkOutcome true "Switch" 10 1 "Great job!")
                              switch_question 1))))) = phase_question.
Proof.
  apply (loading_resolves switch_question 0
           (timed (session "Switch" (mkOutcome true "Switch" 10 1 "Great job!")
                     switch_question 1))).
  vm_compute. reflexivity.
Defined.

Lemma counters_agree_step (now : Z) (e : Event) (c : Component) :
  counters_agree c -> counters_agree (step now e c).
Proof.
  unfold counters_agree. split_component c.
  cbn [view submitted inflight questionsAnswered streak score].
  intros (answered & Hsub & Hqa & Hstk & Hsc & Hall).
  destruct e as [answer | | data | next |].
  - unfold step, dispatch, options_clickable, spinner, handleAnswer,
      questionEffect, apply_handler.
    cbn [view question result phase isFetching thens inflight submitted].
    case_step; exists answered;
      (split; [first [assumption | rewrite Hsub, <- app_assoc; reflexivity] |]);
      (split; [assumption |]); (split; [assumption |]); (split; [assumption |]);
      first [assumption
            | apply Forall_app; split; [assumption | repeat constructor; cbn; lia]].
  - unfold step, dispatch, continue_clickable, spinner, handleContinue,
      questionEffect, apply_handler.
    cbn [view question result phase isFetching thens inflight submitted
         questionsAnswered].
    destruct ((Z.rem qa 3 =? 0) && (qa >? 0));
      case_step; exists answered; repeat split; assumption || lia.
  - destruct infl as [| sub rest].
    + unfold step, dispatch, questionEffect.
      cbn [view question result phase isFetching thens inflight submitted].
      case_step; exists answered; repeat split; assumption || lia.
    + apply Forall_cons_iff in Hall. destruct Hall as [Hseen Hrest].
      unfold step, dispatch, onSuccess, questionEffect, apply_handler.
      cbn [view question result phase isFetching thens inflight submitted].
      case_step; exists (answered ++ [sub])%list;
        (split; [rewrite Hsub, <- app_assoc; reflexivity |]);
        rewrite length_app; cbn [length];
        (split; [lia |]); (split; [lia |]); (split; [nia |]); assumption.
  - unfold step, dispatch, questionEffect.
    cbn [view question result phase isFetching thens inflight submitted].
    case_step; exists answered; repeat split; assumption || lia.
  - unfold step, dispatch, tick, questionEffect, apply_handler.
    cbn [view question result phase isFetching thens inflight submitted
         gameProgress].
    destruct (gp >=? 100);
      case_step; exists answered; repeat split; assumption || lia.
Qed.

(** X20. The counters of a session keep count: [questionsAnswered] is the
    number of submissions that have been answered, and these followed by the
    ones still in flight are exactly the requests sent; the streak is never
    negative and never exceeds [questionsAnswered]; the score is never
    negative. *)
Theorem counters_keep_count (first : Question) (t0 : Z) (es : list (Z * Event)) :
  let c := steps (mounted first t0) es in
  questionsAnswered (view c) =
    Z.of_nat (length (submitted c)) - Z.of_nat (length (inflight c)) /\
  (exists answered, submitted c = (answered ++ inflight c)%list) /\
  0 <= streak (view c) <= questionsAnswered (view c) /\
  0 <= score (view c).
Proof.
  cbv zeta.
  assert (counters_agree (steps (mounted first t0) es))
    as (answered & Hsub & Hqa & Hstk & Hsc & _).
  { apply steps_invariant; [intros; apply counters_agree_step; assumption |].
    exists []. cbn. repeat split; try lia. constructor. }
  split; [rewrite Hsub, length_app; lia |].
  split; [exists answered; exact Hsub |].
  split; assumption.
Qed.

(** *** Score and streak *)

Lemma answered_component (c : Component) (t1 t2 : Z) (answer : string)
    (data : Outcome) :
  Rounds.ready c ->
  let c' := step t2 (SubmitSucceeded data) (step t1 (ClickOption answer) c) in
  (phase (view c') = phase_result /\ is_Some (result (view c')) /\
   question c' = question c /\ isFetching c' = false /\ inflight c' = []) /\
  questionsAnswered (view c') = questionsAnswered (view c) + 1 /\
  length (submitted c') = S (length (submitted c)) /\
  score (view c') =
    (if correct data then score (view c) + 10 + 2 * streak (view c)
     else score (view c)) /\
  streak (view c') = (if correct data then streak (view c) + 1 else 0).
Proof.
  unfold Rounds.ready. split_component c.
  cbn [view phase result question isFetching inflight submitted score streak
       questionsAnswered].
  intros (-> & -> & [q0 ->] & -> & ->). cbv zeta.
  unfold step, dispatch, options_clickable, spinner, handleAnswer, onSuccess,
    questionEffect, apply_handler.
  cbn [view question result phase isFetching thens inflight submitted
       is_Some_b negb andb orb GamePhase_eqb fst snd fold_left perform with_view
       app setSelectedAnswer].
  destruct (correct data);
    cbn [view question result phase isFetching thens inflight submitted
         score streak questionsAnswered sub_streak_seen startTime
         is_Some_b negb andb orb GamePhase_eqb fst snd fold_left perform
         with_view app setSelectedAnswer setResult setScore setStreak
         setQuestionsAnswered setPhase];
    rewrite length_app; cbn [length];
    (split; [repeat split; eexists; reflexivity |]);
    repeat split; lia.
Qed.

(** X21. One answered question: from a component that shows a question and
    waits for the first click, a click followed by the server's answer
    leaves the phase [result] with one more question counted; a correct
    answer adds 10 plus twice the streak so far to the score and lengthens
    the streak by one, a wrong one leaves the score and sets the streak
    to 0. *)
Theorem answer_updates_score (c : Component) (t1 t2 : Z) (answer : string)
    (data : Outcome) :
  Rounds.ready c ->
  let c' := step t2 (SubmitSucceeded data) (step t1 (ClickOption answer) c) in
  phase (view c') = phase_result /\
  questionsAnswered (view c') = questionsAnswered (view c) + 1 /\
  inflight c' = [] /\
  length (submitted c') = S (length (submitted c)) /\
  (correct data = true ->
     score (view c') = score (view c) + 10 + 2 * streak (view c) /\
     streak (view c') = streak (view c) + 1) /\
  (correct data = false ->
     score (view c') = score (view c) /\ streak (view c') = 0).
Proof.
  intros Hready.
  pose proof (answered_component c t1 t2 answer data Hready) as H.
  cbv zeta in *.
  destruct H as ((Hph & _ & _ & _ & Hin) & Hqa & Hlen & Hsc & Hstk).
  repeat split; try assumption.
  - rewrite Hsc, H. reflexivity.
  - rewrite Hstk, H. reflexivity.
  - rewrite Hsc, H. reflexivity.
  - rewrite Hstk, H. reflexivity.
Qed.

Lemma answer_updates_score_witness :
  score (view (step 2000 (SubmitSucceeded (mkOutcome true "Switch" 10 1 "Great job!"))
                 (step 1000 (ClickOption "Switch")
                    (mkComponent (mkState phase_question None None 0 22 2 2 0)
                       (Some switch_question) false O [] [])))) = 36.
Proof.
  destruct (answer_updates_score
              (mkComponent (mkState phase_question None None 0 22 2 2 0)
                 (Some switch_question) false O [] [])
              1000 2000 "Switch" (mkOutcome true "Switch" 10 1 "Great job!"))
    as (_ & _ & _ & _ & Hcorrect & _).
  { repeat split. eexists. reflexivity. }
  destruct (Hcorrect eq_refl) as [-> _]. reflexivity.
Defined.

Lemma settle_loading (sel : option string) (st sc stk qa gp : Z) (th : nat)
    (subm : list Submission) (q0 next : Question) (now : Z) :
  steps (mkComponent (mkState phase_loading sel None st sc stk qa gp)
           (Some q0) true (S th) [] subm)
    (map (fun e => (now, e)) (settle next)) =
  mkComponent (mkState phase_question None None now sc stk qa gp)
    (Some next) false O [] subm.
Proof. vm_compute. reflexivity. Qed.

Lemma settle_game (sel : option string) (st sc stk qa : Z) (th : nat)
    (subm : list Submission) (q0 next : Question) (now : Z) :
  steps (mkComponent (mkState phase_game sel None st sc stk qa 0)
           (Some q0) false th [] subm)
    (map (fun e => (now, e)) (settle next)) =
  mkComponent (mkState phase_question None None now sc stk qa 0)
    (Some next) false O [] subm.
Proof. destruct th; vm_compute; reflexivity. Qed.

Lemma step_continue (sel : option string) (r0 : Result) (st sc stk qa gp : Z)
    (th : nat) (subm : list Submission) (q0 : Question) (now : Z) :
  step now ClickContinue
    (mkComponent (mkState phase_result sel (Some r0) st sc stk qa gp)
       (Some q0) false th [] subm) =
  if (Z.rem qa 3 =? 0) && (qa >? 0)
  then mkComponent (mkState phase_game sel None st sc stk qa 0)
         (Some q0) false th [] subm
  else mkComponent (mkState phase_loading sel None st sc stk qa gp)
         (Some q0) true (S th) [] subm.
Proof.
  unfold step, dispatch, continue_clickable, spinner, handleContinue,
    questionEffect, apply_handler.
  cbn [view question result phase isFetching thens inflight submitted
       questionsAnswered is_Some_b negb andb orb GamePhase_eqb].
  destruct ((Z.rem qa 3 =? 0) && (qa >? 0)); reflexivity.
Qed.

Lemma steps_cons (c : Component) (now : Z) (e : Event)
    (es : list (Z * Event)) :
  steps c ((now, e) :: es) = steps (step now e c) es.
Proof. reflexivity. Qed.

Lemma continue_and_settle (c : Component) (now : Z) (next : Question) :
  phase (view c) = phase_result -> is_Some (result (view c)) ->
  is_Some (question c) -> isFetching c = false -> inflight c = [] ->
  exists c',
    steps c (map (fun e => (now, e)) (ClickContinue :: settle next)) = c' /\
    Rounds.ready c' /\
    score (view c') = score (view c) /\
    streak (view c') = streak (view c) /\
    questionsAnswered (view c') = questionsAnswered (view c) /\
    submitted c' = submitted c.
Proof.
  split_component c.
  cbn [view phase result question isFetching inflight submitted score streak
       questionsAnswered].
  intros -> [r0 ->] [q0 ->] -> ->.
  rewrite map_cons, steps_cons, step_continue.
  destruct ((Z.rem qa 3 =? 0) && (qa >? 0)).
  - rewrite settle_game. eexists. split; [reflexivity |].
    repeat split. eexists. reflexivity.
  - rewrite settle_loading. eexists. split; [reflexivity |].
    repeat split. eexists. reflexivity.
Qed.

Lemma steps_app (c : Component) (es es' : list (Z * Event)) :
  steps c (es ++ es') = steps (steps c es) es'.
Proof. unfold steps. apply fold_left_app. Qed.

Lemma round_correct (c : Component) (play : Z * string * Outcome * Question) :
  Rounds.ready c -> correct (snd (fst play)) = true ->
  let c' := steps c (Rounds.round play) in
  Rounds.ready c' /\
  score (view c') = score (view c) + 10 + 2 * streak (view c) /\
  streak (view c') = streak (view c) + 1 /\
  questionsAnswered (view c') = questionsAnswered (view c) + 1.
Proof.
  destruct play as [[[now answer] data] next]. cbn [fst snd].
  intros Hready Hcorrect. cbv zeta.
  pose proof (answered_component c now now answer data Hready) as Hans.
  cbv zeta in Hans. rewrite Hcorrect in Hans.
  destruct Hans as ((Hph & Hres & Hq & Hf & Hin) & Hqa & _ & Hsc & Hstk).
  assert (is_Some (question c)) as Hqc by apply Hready.
  rewrite <- Hq in Hqc.
  destruct (continue_and_settle _ now next Hph Hres Hqc Hf Hin)
    as (c' & Hc' & Hr & Hsc' & Hstk' & Hqa' & _).
  assert (steps c (Rounds.round (now, answer, data, next)) = c') as ->.
  { unfold Rounds.round, answer_and_continue.
    cbn [app map]. rewrite !steps_cons.
    change (ClickContinue :: settle next)
      with ([ClickContinue] ++ settle next)%list in Hc'.
    cbn [app map] in Hc'. rewrite steps_cons in Hc'. exact Hc'. }
  split; [exact Hr |]. rewrite Hsc', Hstk', Hqa'. repeat split; assumption.
Qed.

Lemma rounds_correct (plays : list (Z * string * Outcome * Question)) :
  forall c : Component,
    Rounds.ready c ->
    Forall (fun play => correct (snd (fst play)) = true) plays ->
    let c' := steps c (Rounds.rounds plays) in
    let n := Z.of_nat (length plays) in
    Rounds.ready c' /\
    streak (view c') = streak (view c) + n /\
    questionsAnswered (view c') = questionsAnswered (view c) + n /\
    score (view c') = score (view c) + n * (10 + 2 * streak (view c)) + n * (n - 1).
Proof.
  induction plays as [| play plays IH]; intros c Hready Hall; cbv zeta.
  - cbn. repeat split; try apply Hready; lia.
  - apply Forall_cons_iff in Hall. destruct Hall as [Hplay Hall].
    unfold Rounds.rounds. cbn [map concat]. rewrite steps_app.
    destruct (round_correct c play Hready Hplay) as (Hr & Hsc & Hstk & Hqa).
    destruct (IH _ Hr Hall) as (Hr' & Hstk' & Hqa' & Hsc').
    fold (Rounds.rounds plays).
    split; [exact Hr' |].
    rewrite Hstk', Hqa', Hsc', Hsc, Hstk, Hqa. cbn [length].
    repeat split; nia.
Qed.

(** X22. A run of correct answers: after [n] rounds from the mount, each a
    click, a correct verdict, a continue and the next question, the streak
    and the number of answered questions are [n] and the score is
    [n * n + 9 * n]: the k-th correct answer in a row is worth [8 + 2 * k]
    points. *)
Theorem correct_run_score (first : Question) (t0 : Z)
    (plays : list (Z * string * Outcome * Question)) :
  Forall (fun play => correct (snd (fst play)) = true) plays ->
  let c := steps (mounted first t0) (Rounds.rounds plays) in
  let n := Z.of_nat (length plays) in
  streak (view c) = n /\
  questionsAnswered (view c) = n /\
  score (view c) = n * n + 9 * n /\
  phase (view c) = phase_question /\
  length (submitted c) = length plays.
Proof.
  intros Hall. cbv zeta.
  assert (Rounds.ready (mounted first t0)) as Hready.
  { repeat split. eexists. reflexivity. }
  destruct (rounds_correct plays (mounted first t0) Hready Hall)
    as (Hr & Hstk & Hqa & Hsc).
  cbn [mounted view streak questionsAnswered score] in Hstk, Hqa, Hsc.
  split; [lia |]. split; [lia |]. split; [lia |].
  split; [apply Hr |].
  assert (counters_agree (steps (mounted first t0) (Rounds.rounds plays)))
    as (answered & Hsub & Hcount & _).
  { apply steps_invariant; [intros; apply counters_agree_step; assumption |].
    exists []. cbn. repeat split; try lia. constructor. }
  destruct Hr as (_ & _ & _ & _ & Hin). rewrite Hin, app_nil_r in Hsub.
  rewrite Hsub. lia.
Qed.

Lemma correct_run_score_witness :
  let play := (1000, "Switch", mkOutcome true "Switch" 10 1 "Great job!",
               switch_question) in
  score (view (steps (mounted switch_question 0)
                 (Rounds.rounds [play; play; play]))) = 36.
Proof.
  cbv zeta.
  destruct (correct_run_score switch_question 0
              [ (1000, "Switch", mkOutcome true "Switch" 10 1 "Great job!",
                 switch_question);
                (1000, "Switch", mkOutcome true "Switch" 10 1 "Great job!",
                 switch_question);
                (1000, "Switch", mkOutcome true "Switch" 10 1 "Great job!",
                 switch_question) ]) as (_ & _ & Hscore & _).
  { repeat constructor. }
  exact Hscore.
Defined.

(** *** Clicks, late responses and the server's log *)

(** X25. A click on an option is ignored, and nothing is sent, once a result
    is held or in any phase other than [question], also while the spinner
    is shown. *)
Theorem guarded_click_ignored (now : Z) (answer : string) (c : Component) :
  result (view c) <> None \/ phase (view c) <> phase_question
  \/ spinner c = true ->
  step now (ClickOption answer) c = c /\
  submitted (step now (ClickOption answer) c) = submitted c /\
  (forall q, result (view c) <> None \/ phase (view c) <> phase_question ->
     handleAnswer q now answer (view c) = (view c, [])).
Proof.
  intros H.
  assert (step now (ClickOption answer) c = c) as Hstep.
  { destruct H as [H | [H | H]].
    - apply click_after_result_ignored. left. exact H.
    - apply click_after_result_ignored. right. exact H.
    - unfold step, dispatch, options_clickable. rewrite H.
      cbn [negb andb]. destruct (question c); destruct (phase (view c));
        reflexivity. }
  rewrite Hstep. split; [reflexivity |]. split; [reflexivity |].
  intros q Hq. apply handleAnswer_guard. exact Hq.
Qed.

Lemma guarded_click_ignored_witness :
  step 9000 (ClickOption "Wire") third_result = third_result.
Proof.
  apply (guarded_click_ignored 9000 "Wire" third_result).
  left. discriminate.
Defined.

(** X26. A response is taken whenever it arrives: in whatever phase the
    component is, the answer to an open submission shows its result and
    moves to the result phase, so a late response ends a running
    interstitial or a loading phase. *)
Theorem late_response_shows_result (now : Z) (data : Outcome) (c : Component) :
  inflight c <> [] ->
  let c' := step now (SubmitSucceeded data) c in
  phase (view c') = phase_result /\
  result (view c') =
    Some (mkResult (correct data)
            (if correct data then "Correct!" else "Not quite...")
            (coinsEarned data)) /\
  questionsAnswered (view c') = questionsAnswered (view c) + 1 /\
  length (inflight c') = pred (length (inflight c)).
Proof.
  split_component c. cbn [inflight]. intros Hne.
  destruct infl as [| sub rest]; [congruence |]. cbv zeta.
  unfold step, dispatch, onSuccess, questionEffect, apply_handler.
  cbn [view question result phase isFetching thens inflight submitted].
  destruct (correct data); destruct ph; destruct q; cbn; repeat split.
Qed.

Lemma late_response_shows_result_witness :
  phase (view (step 9000 (SubmitSucceeded (mkOutcome false "Switch" 0 0 "x"))
                 (mkComponent (mkState phase_game (Some "Wire") None 0 36 3 3 40)
                    (Some switch_question) false O
                    [mkSubmission 2 "Wire" 1 3] [mkSubmission 2 "Wire" 1 3])))
  = phase_result.
Proof.
  apply (late_response_shows_result 9000 (mkOutcome false "Switch" 0 0 "x")
           (mkComponent (mkState phase_game (Some "Wire") None 0 36 3 3 40)
              (Some switch_question) false O
              [mkSubmission 2 "Wire" 1 3] [mkSubmission 2 "Wire" 1 3])).
  discriminate.
Defined.

Lemma serve_questions (uid : Z) (subs : list Submission) :
  forall s : Store, questions (serve uid subs s) = questions s.
Proof.
  induction subs as [| sub subs IH]; intros s; [reflexivity |].
  unfold serve in *. cbn [fold_left]. rewrite IH.
  destruct (session_user (Some uid)) as [u |] eqn:Hu.
  - destruct (store_getQuestion s (sub_questionId sub)) as [q |] eqn:Hq.
    + destruct (RoutesSpec.submitAnswer_found s (Some uid) u
                  (sub_questionId sub) (sub_answer sub) (sub_timeTaken sub) q
                  Hu Hq) as [-> _].
      reflexivity.
    + destruct (RoutesSpec.submitAnswer_not_found s (Some uid) u
                  (sub_questionId sub) (sub_answer sub) (sub_timeTaken sub)
                  Hu Hq) as [-> _].
      reflexivity.
  - destruct (RoutesSpec.submitAnswer_no_session s (Some uid)
                (sub_questionId sub) (sub_answer sub) (sub_timeTaken sub) Hu)
      as [-> _].
    reflexivity.
Qed.

(** X27. What the server logs for the requests of a student, handled in
    order: one entry per request whose question exists, in the order of the
    requests, with the verdict of the exact comparison and the time sent;
    requests for unknown questions leave no entry, and the questions are
    never touched. *)
Theorem serve_log (uid : Z) (subs : list Submission) (s : Store) :
  uid <> 0 ->
  learningEvents (serve uid subs s) =
    (learningEvents s ++ omap (Rounds.logged s uid) subs)%list /\
  questions (serve uid subs s) = questions s.
Proof.
  intros Huid. split; [| apply serve_questions].
  revert s. induction subs as [| sub subs IH]; intros s.
  - cbn. rewrite app_nil_r. reflexivity.
  - unfold serve in *. cbn [fold_left]. rewrite IH.
    assert (forall s', questions s' = questions s ->
              omap (Rounds.logged s' uid) subs = omap (Rounds.logged s uid) subs)
      as Hsame.
    { intros s' Hs'. f_equal.
      unfold Rounds.logged, store_getQuestion. rewrite Hs'. reflexivity. }
    change (omap (Rounds.logged s uid) (sub :: subs))
      with (match Rounds.logged s uid sub with
            | Some ev => ev :: omap (Rounds.logged s uid) subs
            | None => omap (Rounds.logged s uid) subs
            end).
    unfold Rounds.logged at 2.
    destruct (store_getQuestion s (sub_questionId sub)) as [q |] eqn:Hq.
    + destruct (RoutesSpec.submitAnswer_found s (Some uid) uid
                  (sub_questionId sub) (sub_answer sub) (sub_timeTaken sub) q
                  (RoutesSpec.session_user_Some uid Huid) Hq) as [-> _].
      cbn [snd]. rewrite Hsame by reflexivity.
      unfold graded_store.
      cbn [learningEvents store_updateMastery store_logLearningEvent].
      rewrite <- app_assoc. reflexivity.
    + destruct (RoutesSpec.submitAnswer_not_found s (Some uid) uid
                  (sub_questionId sub) (sub_answer sub) (sub_timeTaken sub)
                  (RoutesSpec.session_user_Some uid Huid) Hq) as [-> _].
      reflexivity.
Qed.

Lemma serve_log_witness :
  learningEvents
    (serve 2 [mkSubmission 2 "Wire" 4 0; mkSubmission 99 "x" 1 0;
              mkSubmission 2 "Switch" 2 0] seed_store) =
  [mkLearningEvent 2 2 false 4; mkLearningEvent 2 2 true 2].
Proof.
  rewrite (proj1 (serve_log 2 [mkSubmission 2 "Wire" 4 0; mkSubmission 99 "x" 1 0;
                               mkSubmission 2 "Switch" 2 0] seed_store
                    ltac:(discriminate))).
  reflexivity.
Defined.

End GameEngineExtra.
